(** * GPS coordinate data migration ([django_migration_fix.py])

    A shallow embedding of [convert_gps_strings_to_floats] and
    [reverse_conversion], together with the part of Python's builtin
    [float] that the migration relies on, and the properties of the
    coordinate normaliser that the specification states about them.

    Layout:
    - [Float]      : binary64 values and correctly rounded conversions;
    - [PyStr]      : how [float(str)] reads a text;
    - [Py]         : Python values, exceptions, the builtin [float];
    - [Orm]        : the [GPSPath] rows, the table, the stores behind [save()];
    - [Migration]  : the two migration functions, statement by statement;
    - [Spec]       : the vocabulary of the specification;
    - [Grammar]    : the grammar of the texts of floats;
    - [PyInt]      : the builtins [bool] and [int];
    - [Serializer] : [ScanDetailSerializer.to_representation];
    - [Rows]       : the rows after the migration;
    - theorems.                                                              *)

From Stdlib Require Import ZArith List String Ascii Bool Lia.
From Stdlib Require Import Floats.SpecFloat.
From Stdlib Require Import DecimalString.
Import ListNotations.

Local Open Scope Z_scope.

(* ================================================================== *)
(** ** Binary64 floating-point values                                  *)
(* ================================================================== *)

Module Float.

(** A Python [float] is an IEEE-754 binary64.  [spec_float] is the
    Standard Library's specification of such values. *)
Definition float : Type := spec_float.

Definition prec : Z := 53.
Definition emax : Z := 1024.

(** Nearest-even rounding of the integer [z]. *)
Definition of_Z (z : Z) : float := binary_normalize prec emax z 0 false.

(** Nearest-even rounding of [(-1)^neg * m * 10^e], for [0 <= m]:
    what a correctly rounded decimal-to-binary conversion returns.
    A result too large for binary64 is an infinity. *)
Definition of_decimal (neg : bool) (m e : Z) : float :=
  match m with
  | Zpos p =>
      if 0 <=? e then binary_round prec emax neg (p * Z.to_pos (10 ^ e)) 0
      else
        let '(q, e', l) := SFdiv_core_binary prec emax (Zpos p) 0 (10 ^ (- e)) 0 in
        binary_round_aux prec emax neg q e' l
  | _ => S754_zero neg
  end.

Definition is_finite (f : float) : bool :=
  match f with
  | S754_zero _ | S754_finite _ _ _ => true
  | S754_infinity _ | S754_nan => false
  end.

(** [lo <= f <= hi] as Python's chained comparison would decide it
    (every comparison with a NaN is false). *)
Definition between (lo hi : float) (f : float) : bool :=
  SFleb lo f && SFleb f hi.

End Float.

(* ================================================================== *)
(** ** The text accepted by [float(str)]                               *)
(* ================================================================== *)

(** A Python [str] is modelled by its UTF-8 encoding, one [ascii] for each
    byte; an ASCII text is its own encoding.  The stages below are those of
    CPython's [float_from_string]: code points outside ASCII are mapped to
    ASCII, underscores are checked and removed, white space is stripped from
    both ends, and what is left must be one number and nothing else. *)

Module PyStr.

Local Open Scope char_scope.
Local Open Scope Z_scope.

Definition code (c : ascii) : Z := Z.of_N (N_of_ascii c).

Definition is_digit (c : ascii) : bool := (48 <=? code c) && (code c <=? 57).

(** [Py_ISSPACE]: space, [\t], [\n], [\v], [\f], [\r]. *)
Definition is_space (c : ascii) : bool :=
  (code c =? 32) || ((9 <=? code c) && (code c <=? 13)).

(** [Py_TOLOWER]. *)
Definition to_lower (c : ascii) : ascii :=
  if (65 <=? code c) && (code c <=? 90)
  then ascii_of_N (N_of_ascii c + 32) else c.

(** The code points of a text, from its UTF-8 encoding.  [-1] stands for a
    byte that belongs to no well-formed sequence; no [str] has one. *)
Definition is_continuation (b : ascii) : bool := (128 <=? code b) && (code b <? 192).

Definition tail_bits (b : ascii) : Z := code b - 128.

Definition no_code_point : Z := -1.

Fixpoint decode (l : list ascii) : list Z :=
  match l with
  | [] => []
  | b0 :: t =>
      if code b0 <? 128 then code b0 :: decode t
      else if (194 <=? code b0) && (code b0 <? 224) then
        match t with
        | b1 :: t1 =>
            if is_continuation b1
            then (code b0 - 192) * 64 + tail_bits b1 :: decode t1
            else no_code_point :: decode t
        | [] => no_code_point :: decode t
        end
      else if (224 <=? code b0) && (code b0 <? 240) then
        match t with
        | b1 :: b2 :: t2 =>
            let c := (code b0 - 224) * 4096 + tail_bits b1 * 64 + tail_bits b2 in
            if is_continuation b1 && is_continuation b2
               && (2048 <=? c) && negb ((55296 <=? c) && (c <=? 57343))
            then c :: decode t2
            else no_code_point :: decode t
        | _ => no_code_point :: decode t
        end
      else if (240 <=? code b0) && (code b0 <? 245) then
        match t with
        | b1 :: b2 :: b3 :: t3 =>
            let c := (code b0 - 240) * 262144 + tail_bits b1 * 4096
                     + tail_bits b2 * 64 + tail_bits b3 in
            if is_continuation b1 && is_continuation b2 && is_continuation b3
               && (65536 <=? c) && (c <=? 1114111)
            then c :: decode t3
            else no_code_point :: decode t
        | _ => no_code_point :: decode t
        end
      else no_code_point :: decode t
  end.

(** [Py_UNICODE_ISSPACE], for the code points from 127 on. *)
Definition is_unicode_space (c : Z) : bool :=
  (c =? 133) || (c =? 160) || (c =? 5760) || ((8192 <=? c) && (c <=? 8202))
  || (c =? 8232) || (c =? 8233) || (c =? 8239) || (c =? 8287) || (c =? 12288).

(** The digit zero of each run of ten decimal digits (category Nd) in the
    Unicode database of CPython 3.11, version 14.0. *)
Definition decimal_zeros : list Z :=
  [48; 1632; 1776; 1984; 2406; 2534; 2662; 2790; 2918; 3046; 3174; 3302; 3430;
   3558; 3664; 3792; 3872; 4160; 4240; 6112; 6160; 6470; 6608; 6784; 6800; 6992;
   7088; 7232; 7248; 42528; 43216; 43264; 43472; 43504; 43600; 44016; 65296;
   66720; 68912; 69734; 69872; 69942; 70096; 70384; 70736; 70864; 71248; 71360;
   71472; 71904; 72016; 72784; 73040; 73120; 92768; 92864; 93008; 120782; 120792;
   120802; 120812; 120822; 123200; 123632; 125264; 130032].

(** [Py_UNICODE_TODECIMAL]. *)
Definition decimal_digit (c : Z) : option Z :=
  match find (fun z => (z <=? c) && (c <=? z + 9)) decimal_zeros with
  | Some z => Some (c - z)
  | None => None
  end.

Definition ascii_of_code (c : Z) : ascii := ascii_of_N (Z.to_N c).

(** [_PyUnicode_TransformDecimalAndSpaceToASCII], one code point: below 127
    unchanged; white space becomes a space and a decimal digit its ASCII
    digit; every other code point becomes ["?"].  (CPython also cuts the text
    after the first ["?"], and leaves a text that is all ASCII as it is; as
    no number contains a ["?"] or the code point 127, the text is refused
    either way.) *)
Definition to_ascii (c : Z) : ascii :=
  if (0 <=? c) && (c <? 127) then ascii_of_code c
  else if is_unicode_space c then " "
  else match decimal_digit c with
       | Some d => ascii_of_code (48 + d)
       | None => "?"
       end.

(** The text as [float] and [int] read it. *)
Definition normalise (s : string) : list ascii :=
  map to_ascii (decode (list_ascii_of_string s)).

Definition is_underscore (c : ascii) : bool := Ascii.eqb c "_".

(** [_Py_string_to_number_with_underscores]: an underscore is allowed only
    between two digits; it is then dropped.  [prev] is the character before
    the head of the list. *)
Fixpoint strip_underscores (prev : ascii) (l : list ascii) : option (list ascii) :=
  match l with
  | [] => if is_underscore prev then None else Some []
  | c :: t =>
      if is_underscore c then
        if is_digit prev then strip_underscores c t else None
      else if is_underscore prev && negb (is_digit c) then None
      else option_map (cons c) (strip_underscores c t)
  end.

Fixpoint lstrip (l : list ascii) : list ascii :=
  match l with
  | c :: t => if is_space c then lstrip t else l
  | [] => []
  end.

Definition rstrip (l : list ascii) : list ascii := rev (lstrip (rev l)).

(** The longest prefix of digits, and the rest. *)
Fixpoint span_digits (l : list ascii) : list ascii * list ascii :=
  match l with
  | c :: t =>
      if is_digit c then let '(d, r) := span_digits t in (c :: d, r)
      else ([], l)
  | [] => ([], [])
  end.

Definition digits_value (d : list ascii) : Z :=
  fold_left (fun acc c => 10 * acc + (code c - 48)) d 0.

(** An optional sign: [true] for ["-"]. *)
Definition take_sign (l : list ascii) : bool * list ascii :=
  match l with
  | c :: t =>
      if Ascii.eqb c "-" then (true, t)
      else if Ascii.eqb c "+" then (false, t)
      else (false, l)
  | [] => (false, l)
  end.

(** An optional decimal point and the digits after it. *)
Definition take_fraction (l : list ascii) : list ascii * list ascii :=
  match l with
  | c :: t => if Ascii.eqb c "." then span_digits t else ([], l)
  | [] => ([], l)
  end.

(** The exponent part of [_Py_dg_strtod]: ["e"] or ["E"], an optional sign
    and at least one digit; an ["e"] that no digit follows is not part of
    the number. *)
Definition take_exponent (l : list ascii) : Z * list ascii :=
  match l with
  | c :: t =>
      if Ascii.eqb (to_lower c) "e" then
        let '(eneg, t1) := take_sign t in
        let '(d, t2) := span_digits t1 in
        match d with
        | [] => (0, l)
        | _ => ((if eneg then - digits_value d else digits_value d), t2)
        end
      else (0, l)
  | [] => (0, l)
  end.

(** [MAX_DIGITS] of [dtoa.c]. *)
Definition max_digits : Z := 1000000000.

(** The digits that [_Py_dg_strtod] counts ([ndigits]): those that follow
    the leading zeros. *)
Fixpoint significant (d : list ascii) : list ascii :=
  match d with
  | c :: t => if Ascii.eqb c "0" then significant t else d
  | [] => []
  end.

(** The range check on [ndigits] and [fraclen]. *)
Definition too_long (ip fp : list ascii) : bool :=
  (max_digits <? Z.of_nat (List.length (significant (ip ++ fp))))
  || (max_digits <? Z.of_nat (List.length fp)).

(** [_Py_dg_strtod]: sign, digits, an optional point and digits, with at
    least one digit in all and no more than [max_digits], then an optional
    exponent.  Returns the value and the unread rest; [None] when no number
    starts the text. *)
Definition strtod (l : list ascii) : option (Float.float * list ascii) :=
  let '(neg, l1) := take_sign l in
  let '(ip, l2) := span_digits l1 in
  let '(fp, l3) := take_fraction l2 in
  match ip ++ fp with
  | [] => None
  | _ :: _ =>
      if too_long ip fp then None
      else
        let '(ex, l4) := take_exponent l3 in
        Some (Float.of_decimal neg (digits_value (ip ++ fp))
                (ex - Z.of_nat (List.length fp)), l4)
  end.

(** [case_insensitive_match]: [t] (in lower case) is a prefix of [s] up to
    case; returns what follows it. *)
Fixpoint match_ci (t s : list ascii) : option (list ascii) :=
  match t, s with
  | [], _ => Some s
  | a :: t', c :: s' => if Ascii.eqb (to_lower c) a then match_ci t' s' else None
  | _ :: _, [] => None
  end.

(** [_Py_parse_inf_or_nan]. *)
Definition parse_inf_or_nan (l : list ascii) : option (Float.float * list ascii) :=
  let '(neg, s) := take_sign l in
  match match_ci ["i"; "n"; "f"] s with
  | Some s1 =>
      match match_ci ["i"; "n"; "i"; "t"; "y"] s1 with
      | Some s2 => Some (S754_infinity neg, s2)
      | None => Some (S754_infinity neg, s1)
      end
  | None =>
      match match_ci ["n"; "a"; "n"] s with
      | Some s1 => Some (S754_nan, s1)
      | None => None
      end
  end.

(** [_PyOS_ascii_strtod]: a number, or else an infinity or a NaN. *)
Definition ascii_strtod (l : list ascii) : option (Float.float * list ascii) :=
  match strtod l with
  | Some r => Some r
  | None => parse_inf_or_nan l
  end.

(** [float_from_string_inner]: strip, convert, and refuse the text unless
    all of it was read. *)
Definition float_from_string_inner (l : list ascii) : option Float.float :=
  match rstrip (lstrip l) with
  | [] => None
  | core =>
      match ascii_strtod core with
      | Some (x, []) => Some x
      | _ => None
      end
  end.

(** [float_from_string]; [None] stands for the [ValueError]. *)
Definition float_from_string (s : string) : option Float.float :=
  match strip_underscores "000" (normalise s) with
  | Some l => float_from_string_inner l
  | None => None
  end.

End PyStr.

(* ================================================================== *)
(** ** Python values, exceptions and the builtin [float]               *)
(* ================================================================== *)

Module Py.

(** The values a coordinate attribute can hold. *)
Inductive value : Type :=
| VNone
| VInt (z : Z)
| VFloat (f : Float.float)
| VStr (s : string).

(** The exceptions of the builtins, and the errors of the database
    ([django.db.IntegrityError] and the like, by name), none of which is a
    [ValueError] or a [TypeError]. *)
Inductive exn : Type :=
| ValueError
| TypeError
| OverflowError
| DatabaseError (name : string).

(** The outcome of evaluating an expression or a block. *)
Inductive result (A : Type) : Type :=
| Ok (a : A)
| Raise (e : exn).
Arguments Ok {A} a.
Arguments Raise {A} e.

Definition bind {A B : Type} (r : result A) (k : A -> result B) : result B :=
  match r with
  | Ok a => k a
  | Raise e => Raise e
  end.

(** [isinstance(v, str)]. *)
Definition isinstance_str (v : value) : bool :=
  match v with
  | VStr _ => true
  | _ => false
  end.

(** The builtin [float(v)]: a text is parsed, and refused with
    [ValueError]; an integer is rounded, and refused with [OverflowError]
    when too large; [None] is refused with [TypeError]. *)
Definition float (v : value) : result Float.float :=
  match v with
  | VStr s =>
      match PyStr.float_from_string s with
      | Some f => Ok f
      | None => Raise ValueError
      end
  | VFloat f => Ok f
  | VInt z =>
      match Float.of_Z z with
      | S754_infinity _ => Raise OverflowError
      | f => Ok f
      end
  | VNone => Raise TypeError
  end.

(** [str(z)] for an integer. *)
Definition str_of_int (z : Z) : string := NilEmpty.string_of_int (Z.to_int z).

End Py.

(* ================================================================== *)
(** ** The [GPSPath] rows and their table                              *)
(* ================================================================== *)

Module Orm.

Import Py.

(** A [GPSPath] instance ([django_models_fix.py]).  [latitude] and
    [longitude] hold whatever the column held before the schema change:
    text or a number. *)
Record GPSPath : Type := mkGPSPath {
  id : Z;
  scan : Z;
  latitude : value;
  longitude : value;
  accuracy : Float.float;
  timestamp : Z
}.

(** [gps_point.latitude = v] and [gps_point.longitude = v]. *)
Definition set_latitude (v : value) (p : GPSPath) : GPSPath :=
  mkGPSPath (id p) (scan p) v (longitude p) (accuracy p) (timestamp p).

Definition set_longitude (v : value) (p : GPSPath) : GPSPath :=
  mkGPSPath (id p) (scan p) (latitude p) v (accuracy p) (timestamp p).

(** The instance with both coordinates replaced. *)
Definition with_coordinates (p : GPSPath) (la lo : value) : GPSPath :=
  mkGPSPath (id p) (scan p) la lo (accuracy p) (timestamp p).

(** The table, in the order in which [GPSPath.objects.all()] yields it. *)
Definition table : Type := list GPSPath.

Definition has_id (i : Z) (r : GPSPath) : bool := id r =? i.

(** The row stored under a primary key. *)
Definition get (i : Z) (t : table) : option GPSPath := find (has_id i) t.

(** [UPDATE ... WHERE id = p.id]. *)
Definition update (p : GPSPath) (t : table) : table :=
  map (fun r => if has_id (id p) r then p else r) t.

(** A table that accepts every instance and keeps it as it stands: the row
    of [p]'s primary key is overwritten with [p]; a row is inserted when the
    key is not in the table. *)
Definition save (p : GPSPath) (t : table) : table :=
  if existsb (has_id (id p)) t then update p t else t ++ [p].

(** [p.save()], which is Django's and the database's: from the instance and
    the table, the table afterwards and the exception raised, if any. *)
Definition store : Type := GPSPath -> table -> table * option exn.

(** The store over a table that refuses nothing. *)
Definition verbatim : store := fun p t => (save p t, None).

Definition is_nan_or_none (v : value) : bool :=
  match v with
  | VNone | VFloat S754_nan => true
  | _ => false
  end.

(** A store over a table whose coordinate columns are [NOT NULL] and cannot
    hold a NaN, as those of SQLite: an instance with a NaN or [None]
    coordinate is refused with an [IntegrityError]. *)
Definition not_null : store := fun p t =>
  if is_nan_or_none (latitude p) || is_nan_or_none (longitude p)
  then (t, Some (DatabaseError "IntegrityError"))
  else (save p t, None).

(** No two rows share a primary key. *)
Definition unique_ids (t : table) : Prop := NoDup (map id t).

End Orm.

(* ================================================================== *)
(** ** The migration functions                                         *)
(* ================================================================== *)

Module Migration.

Import Py Orm.

(** What the migration can observe and change: the [GPSPath] table and the
    lines printed so far. *)
Record world : Type := mkWorld {
  db : table;
  stdout : list string
}.

(** [if isinstance(gps_point.x, str): gps_point.x = float(gps_point.x)],
    acting on the instance [p]: the instance as the statement leaves it,
    and whether the statement raised.  When [float] raises, nothing has
    been assigned. *)
Definition convert_attr (get : GPSPath -> value)
    (set : value -> GPSPath -> GPSPath) (p : GPSPath) : GPSPath * result unit :=
  if isinstance_str (get p) then
    match float (get p) with
    | Ok f => (set (VFloat f) p, Ok tt)
    | Raise e => (p, Raise e)
    end
  else (p, Ok tt).

(** The two conversions of the [try] block, in order; the second is not
    run when the first raises. *)
Definition convert_point (p : GPSPath) : GPSPath * result unit :=
  let '(p1, r1) := convert_attr latitude set_latitude p in
  match r1 with
  | Ok _ => convert_attr longitude set_longitude p1
  | Raise e => (p1, Raise e)
  end.

(** [except (ValueError, TypeError)]. *)
Definition handled (e : exn) : bool :=
  match e with
  | ValueError | TypeError => true
  | OverflowError | DatabaseError _ => false
  end.

Definition warning (i : Z) : string :=
  ("Warning: Could not convert GPS coordinates for point " ++ str_of_int i)%string.

(** One iteration of the loop, over the store [save]: the world it leaves
    and the exception that leaves the loop, if any.  The [try] block ends
    with [gps_point.save()], so an exception of [save()] meets the same
    handler as one of [float]; the handler prints the warning. *)
Definition loop_body_on (save : store) (p : GPSPath) (w : world) : world * option exn :=
  let '(p', r) := convert_point p in
  match r with
  | Ok _ =>
      let '(t, raised) := save p' (db w) in
      match raised with
      | None => (mkWorld t (stdout w), None)
      | Some e =>
          if handled e then (mkWorld t (stdout w ++ [warning (id p')]), None)
          else (mkWorld t (stdout w), Some e)
      end
  | Raise e =>
      if handled e then (mkWorld (db w) (stdout w ++ [warning (id p')]), None)
      else (w, Some e)
  end.

Fixpoint for_each_on (save : store) (ps : list GPSPath) (w : world) : world * option exn :=
  match ps with
  | [] => (w, None)
  | p :: rest =>
      match loop_body_on save p w with
      | (w', None) => for_each_on save rest w'
      | (w', Some e) => (w', Some e)
      end
  end.

(** [convert_gps_strings_to_floats(apps, schema_editor)], over the store
    [save].  The query set is read once, before the first iteration. *)
Definition convert_gps_strings_to_floats_on (save : store) (w : world) : world * option exn :=
  for_each_on save (db w) w.

(** A run as a [result]: the world when the function returns, the exception
    when it does not. *)
Definition completed (r : world * option exn) : result world :=
  match r with
  | (w, None) => Ok w
  | (_, Some e) => Raise e
  end.

(** The same, over a table that refuses nothing. *)
Definition loop_body (p : GPSPath) (w : world) : result world :=
  completed (loop_body_on verbatim p w).

Definition for_each (ps : list GPSPath) (w : world) : result world :=
  completed (for_each_on verbatim ps w).

Definition convert_gps_strings_to_floats (w : world) : result world :=
  completed (convert_gps_strings_to_floats_on verbatim w).

(** [reverse_conversion(apps, schema_editor)]: [pass]. *)
Definition reverse_conversion (w : world) : result world := Ok w.

(** *** The normaliser's two outputs

    [normalized]: the instances that the conversions hand to [save()], as
    they are handed, in order.  [failed]: the primary keys of the records
    whose conversion raises, in order. *)

Definition saved_as (p : GPSPath) : list GPSPath :=
  match convert_point p with
  | (p', Ok _) => [p']
  | (_, Raise _) => []
  end.

Definition reported_as (p : GPSPath) : list Z :=
  match convert_point p with
  | (_, Ok _) => []
  | (p', Raise _) => [id p']
  end.

Definition normalized (records : list GPSPath) : list GPSPath :=
  flat_map saved_as records.

Definition failed (records : list GPSPath) : list Z :=
  flat_map reported_as records.

Definition normalize (records : list GPSPath) : list GPSPath * list Z :=
  (normalized records, failed records).

End Migration.

(* ================================================================== *)
(** ** The vocabulary of the specification                             *)
(* ================================================================== *)

Module Spec.

Import Py Orm.

(** A numeric value within [[lo, hi]].  No NaN and no infinity is. *)
Definition in_range (lo hi : Z) (v : value) : bool :=
  match v with
  | VFloat f => Float.between (Float.of_Z lo) (Float.of_Z hi) f
  | VInt z => (lo <=? z) && (z <=? hi)
  | VNone | VStr _ => false
  end.

Definition valid_latitude : value -> bool := in_range (-90) 90.
Definition valid_longitude : value -> bool := in_range (-180) 180.

Definition in_range_point (p : GPSPath) : bool :=
  valid_latitude (latitude p) && valid_longitude (longitude p).

(** A value that is a finite floating-point number. *)
Definition finite_float (v : value) : bool :=
  match v with
  | VFloat f => Float.is_finite f
  | _ => false
  end.

Definition is_point (c : ascii) : bool := Ascii.eqb c ".".

Definition is_sign (c : ascii) : bool := Ascii.eqb c "-" || Ascii.eqb c "+".

Definition count (f : ascii -> bool) (l : list ascii) : nat :=
  List.length (filter f l).

(** The standard decimal forms of the specification: white space on either
    side, an optional sign, then digits with at most one decimal point
    among them. *)
Definition simple_decimal (s : string) : bool :=
  let core := PyStr.rstrip (PyStr.lstrip (list_ascii_of_string s)) in
  let body := snd (PyStr.take_sign core) in
  forallb (fun c => PyStr.is_digit c || is_point c) body
  && (count is_point body <=? 1)%nat
  && (1 <=? count PyStr.is_digit body)%nat.

(** What the code converts: any text that [float] accepts, and any value
    that is not text (it is left alone). *)
Definition convertible (v : value) : bool :=
  match v with
  | VStr s =>
      match PyStr.float_from_string s with
      | Some _ => true
      | None => false
      end
  | _ => true
  end.

(** A record that the code accepts, whatever the range of its values. *)
Definition accepted (p : GPSPath) : bool :=
  convertible (latitude p) && convertible (longitude p).


(** The value-level reading of one conversion statement. *)
Definition convert_value (v : value) : result value :=
  if isinstance_str v then bind (float v) (fun f => Ok (VFloat f)) else Ok v.



End Spec.

(* ================================================================== *)
(** ** The texts of numbers                                            *)
(* ================================================================== *)

(** The grammar of the texts that stand for a float, in the words of the
    language reference: an optional sign, then a decimal number with an
    optional exponent, or one of the words for infinity and NaN, with white
    space allowed on either side and single underscores between digits. *)

Module Grammar.

Local Open Scope char_scope.

Definition digits (d : list ascii) : Prop :=
  d <> [] /\ forallb PyStr.is_digit d = true.

Definition sign (sg : list ascii) : Prop :=
  sg = [] \/ sg = ["+"] \/ sg = ["-"].

(** The size of a number that is read: at most [PyStr.max_digits] digits
    from the first one that is not zero, and at most as many after the
    point. *)
Definition sized (ip fp : list ascii) : Prop :=
  (Z.of_nat (List.length (PyStr.significant (ip ++ fp))) <= PyStr.max_digits)%Z /\
  (Z.of_nat (List.length fp) <= PyStr.max_digits)%Z.

(** Digits with at most one decimal point among them, at least one digit,
    and of that size. *)
Inductive number : list ascii -> Prop :=
| whole ip : digits ip -> sized ip [] -> number ip
| pointed ip fp :
    forallb PyStr.is_digit ip = true -> forallb PyStr.is_digit fp = true ->
    ip ++ fp <> [] -> sized ip fp -> number (ip ++ "." :: fp).

(** Nothing, or ["e"] or ["E"], an optional sign and digits. *)
Inductive exponent : list ascii -> Prop :=
| no_exponent : exponent []
| some_exponent c sg d :
    Ascii.eqb (PyStr.to_lower c) "e" = true -> sign sg -> digits d ->
    exponent (c :: sg ++ d).

(** [inf], [infinity] or [nan], in any letter case. *)
Definition word (w : list ascii) : Prop :=
  In (map PyStr.to_lower w)
     [ ["i"; "n"; "f"]; ["i"; "n"; "f"; "i"; "n"; "i"; "t"; "y"]; ["n"; "a"; "n"] ].

Inductive literal : list ascii -> Prop :=
| decimal sg n ex : sign sg -> number n -> exponent ex -> literal (sg ++ n ++ ex)
| special sg w : sign sg -> word w -> literal (sg ++ w).

(** Every underscore has a digit before it and a digit after it. *)
Definition underscores_between_digits (l : list ascii) : Prop :=
  forall a b, l = a ++ "_" :: b ->
    PyStr.is_digit (last a "000") = true /\ PyStr.is_digit (hd "000" b) = true.

Definition without_underscores (l : list ascii) : list ascii :=
  filter (fun c => negb (PyStr.is_underscore c)) l.

Definition white (ws : list ascii) : Prop := forallb PyStr.is_space ws = true.

(** A text without white space. *)
Definition solid (l : list ascii) : Prop :=
  forallb (fun c => negb (PyStr.is_space c)) l = true.

(** The texts of floats: the text as it is read (Unicode white space as a
    space, Unicode decimal digits as ASCII digits) has its underscores
    between digits and is, without them, a literal between white space. *)
Definition float_text (s : string) : Prop :=
  underscores_between_digits (PyStr.normalise s) /\
  exists ws1 core ws2,
    without_underscores (PyStr.normalise s) = ws1 ++ core ++ ws2 /\
    white ws1 /\ white ws2 /\ literal core.

(** The number of decimal points in a text, and whether a text is empty or
    all white space. *)
Definition points (s : string) : nat :=
  List.length (filter (Z.eqb 46) (PyStr.decode (list_ascii_of_string s))).

Definition blank (s : string) : bool :=
  forallb (fun c => PyStr.is_space (PyStr.to_ascii c))
          (PyStr.decode (list_ascii_of_string s)).

End Grammar.

(* ================================================================== *)
(** ** Sample data                                                     *)
(* ================================================================== *)

Module Sample.

Import Py Orm Migration.
Local Open Scope string_scope.

(** A point of scan 1 with accuracy 100.0, recorded at instant 0. *)
Definition point (i : Z) (la lo : value) : GPSPath :=
  mkGPSPath i 1 la lo (Float.of_Z 100) 0.

Definition f (neg : bool) (m e : Z) : value := VFloat (Float.of_decimal neg m e).

Definition batch : list GPSPath :=
  [ point 1 (VStr "45.123") (VStr "-122.5");
    point 2 (VStr "12.5") (VStr "abc");
    point 3 (f false 10 0) (f true 20 0);
    point 4 (VStr EmptyString) (VStr "7");
    point 5 (VStr " 1e1 ") (VInt 3) ].


End Sample.

(* ================================================================== *)
(** ** The builtins [bool] and [int]                                   *)
(* ================================================================== *)

Module PyInt.

Import Py.
Local Open Scope char_scope.
Local Open Scope Z_scope.

(** [bool(v)], the truth value that [if] and [... if ... else ...] test:
    [None], zero (of either sign) and the empty text are false; a NaN is
    true. *)
Definition truthy (v : value) : bool :=
  match v with
  | VNone => false
  | VInt z => negb (z =? 0)
  | VFloat (S754_zero _) => false
  | VFloat _ => true
  | VStr s => negb (String.eqb s EmptyString)
  end.

(** The digits of an integer literal, in CPython's [PyLong_FromString]:
    digits with single underscores between them.  Returns the digits and
    the unread rest; [None] for a doubled or a trailing underscore.  [prev]
    is the character before the head of the list. *)
Fixpoint scan_digits (prev : ascii) (l : list ascii) : option (list ascii * list ascii) :=
  match l with
  | c :: t =>
      if PyStr.is_underscore c then
        if PyStr.is_underscore prev then None else scan_digits c t
      else if PyStr.is_digit c then
        match scan_digits c t with
        | Some (d, r) => Some (c :: d, r)
        | None => None
        end
      else if PyStr.is_underscore prev then None
      else Some ([], l)
  | [] => if PyStr.is_underscore prev then None else Some ([], [])
  end.

(** [sys.get_int_max_str_digits()], as the interpreter starts. *)
Definition max_str_digits : nat := 4300.

(** [int(s)] for a text, in base 10: white space, an optional sign, the
    digits, white space, and nothing else; [None] stands for the
    [ValueError]. *)
Definition int_from_string (s : string) : option Z :=
  let l := PyStr.lstrip (PyStr.normalise s) in
  let '(neg, l1) := PyStr.take_sign l in
  match l1 with
  | c :: _ => if PyStr.is_underscore c then None else
      match scan_digits "000" l1 with
      | Some (d, r) =>
          match d, PyStr.lstrip r with
          | _ :: _, [] =>
              if (max_str_digits <? List.length d)%nat then None
              else Some (if neg then - PyStr.digits_value d else PyStr.digits_value d)
          | _, _ => None
          end
      | None => None
      end
  | [] => None
  end.

(** The integer part of a finite float, rounded toward zero. *)
Definition trunc (f : Float.float) : option Z :=
  match f with
  | S754_zero _ => Some 0
  | S754_finite s m e =>
      let a := Z.shiftl (Zpos m) e in Some (if s then - a else a)
  | S754_infinity _ | S754_nan => None
  end.

(** The builtin [int(v)]. *)
Definition int (v : value) : result Z :=
  match v with
  | VInt z => Ok z
  | VFloat f =>
      match f with
      | S754_nan => Raise ValueError
      | S754_infinity _ => Raise OverflowError
      | _ => match trunc f with
             | Some z => Ok z
             | None => Raise OverflowError
             end
      end
  | VStr s =>
      match int_from_string s with
      | Some z => Ok z
      | None => Raise ValueError
      end
  | VNone => Raise TypeError
  end.

End PyInt.

(* ================================================================== *)
(** ** [ScanDetailSerializer.to_representation]                        *)
(* ================================================================== *)

Module Serializer.

Import Py.
Local Open Scope string_scope.

(** What a representation holds under a key: a scalar, a list or a nested
    representation. *)
#[warnings="-register-all"]
Inductive json : Type :=
| JScalar (v : value)
| JList (items : list json)
| JDict (items : list (string * json)).

(** A [dict] with text keys, in insertion order. *)
Definition dict : Type := list (string * json).

Inductive error : Type :=
| Builtin (e : exn)
| KeyError (k : string).

Inductive outcome (A : Type) : Type :=
| Returns (a : A)
| Raises (e : error).
Arguments Returns {A} a.
Arguments Raises {A} e.

Definition and_then {A B : Type} (r : outcome A) (k : A -> outcome B) : outcome B :=
  match r with
  | Returns a => k a
  | Raises e => Raises e
  end.

Definition of_result {A : Type} (r : result A) : outcome A :=
  match r with
  | Ok a => Returns a
  | Raise e => Raises (Builtin e)
  end.

Fixpoint lookup (k : string) (d : dict) : option json :=
  match d with
  | (k', v) :: rest => if String.eqb k' k then Some v else lookup k rest
  | [] => None
  end.

(** [d.get(k)]: [None] for a missing key. *)
Definition get (k : string) (d : dict) : json :=
  match lookup k d with
  | Some v => v
  | None => JScalar VNone
  end.

(** [d[k]]: [KeyError] for a missing key. *)
Definition getitem (k : string) (d : dict) : outcome json :=
  match lookup k d with
  | Some v => Returns v
  | None => Raises (KeyError k)
  end.

(** [d[k] = v]: the value of a present key is replaced where it is; a new
    key goes to the end. *)
Fixpoint setitem (k : string) (v : json) (d : dict) : dict :=
  match d with
  | (k', v') :: rest =>
      if String.eqb k' k then (k, v) :: rest else (k', v') :: setitem k v rest
  | [] => [(k, v)]
  end.

(** [bool(x)]: an empty list and an empty dict are false. *)
Definition truthy (x : json) : bool :=
  match x with
  | JScalar v => PyInt.truthy v
  | JList items => match items with [] => false | _ :: _ => true end
  | JDict items => match items with [] => false | _ :: _ => true end
  end.

(** [int(x)] and [float(x)]: a list or a dict is refused with
    [TypeError]. *)
Definition int (x : json) : outcome json :=
  match x with
  | JScalar v => of_result (bind (PyInt.int v) (fun z => Ok (JScalar (VInt z))))
  | _ => Raises (Builtin TypeError)
  end.

Definition float (x : json) : outcome json :=
  match x with
  | JScalar v => of_result (bind (Py.float v) (fun f => Ok (JScalar (VFloat f))))
  | _ => Raises (Builtin TypeError)
  end.

(** [data[k] = conv(data[k]) if data.get(k) else default]. *)
Definition coerce (conv : json -> outcome json) (default : json)
    (k : string) (data : dict) : outcome dict :=
  and_then
    (if truthy (get k data) then and_then (getitem k data) conv
     else Returns default)
    (fun v => Returns (setitem k v data)).

Definition int_zero : json := JScalar (VInt 0).
Definition float_zero : json := JScalar (VFloat (S754_zero false)).

(** The keys that [to_representation] coerces, in the order of its
    statements, each with its conversion and its default. *)
Definition int_keys : list string := ["duration"; "total_images"].
Definition float_keys : list string := ["area_covered"; "height"; "data_size_mb"].
Definition coerced_keys : list string :=
  ["duration"; "area_covered"; "height"; "data_size_mb"; "total_images"].

(** [to_representation(self, instance)], from [data], the dict that
    [super().to_representation(instance)] returned. *)
Definition to_representation (data : dict) : outcome dict :=
  and_then (coerce int int_zero "duration" data) (fun data =>
  and_then (coerce float float_zero "area_covered" data) (fun data =>
  and_then (coerce float float_zero "height" data) (fun data =>
  and_then (coerce float float_zero "data_size_mb" data) (fun data =>
  and_then (coerce int int_zero "total_images" data) (fun data =>
  Returns data))))).

(** *** Vocabulary for the statements about [to_representation] *)

Definition is_int_key (k : string) : bool := existsb (String.eqb k) int_keys.

(** The conversion and the default that the statement for key [k] uses. *)
Definition conversion (k : string) : json -> outcome json :=
  if is_int_key k then int else float.

Definition default (k : string) : json :=
  if is_int_key k then int_zero else float_zero.

(** [v] is the value of [conv(x) if x else default]. *)
Definition chosen (conv : json -> outcome json) (dflt x v : json) : Prop :=
  if truthy x then conv x = Returns v else v = dflt.

Definition has_key (k : string) (d : dict) : bool :=
  existsb (String.eqb k) (map fst d).

(** What a serializer field of integer type, or of float type, puts in the
    representation: a number of that type, or [None]. *)
Definition int_or_none (x : json) : bool :=
  match x with
  | JScalar (VInt _) | JScalar VNone => true
  | _ => false
  end.

Definition float_or_none (x : json) : bool :=
  match x with
  | JScalar (VFloat _) | JScalar VNone => true
  | _ => false
  end.

Definition typed_input (k : string) (x : json) : bool :=
  if is_int_key k then int_or_none x else float_or_none x.

(** A representation as the API would send it for one scan. *)
Definition sample : dict :=
  [ ("id", JScalar (VInt 7));
    ("title", JScalar (VStr "Roof"));
    ("duration", JScalar (VInt 120));
    ("area_covered", JScalar (VFloat (Float.of_decimal false 125 (-1))));
    ("height", JScalar VNone);
    ("gps_points", JList [JDict [("id", JScalar (VInt 1))]]);
    ("total_images", JScalar (VInt 0)) ].

(** What [to_representation] returns for [sample]. *)
Definition sample_out : dict :=
  [ ("id", JScalar (VInt 7));
    ("title", JScalar (VStr "Roof"));
    ("duration", JScalar (VInt 120));
    ("area_covered", JScalar (VFloat (Float.of_decimal false 125 (-1))));
    ("height", float_zero);
    ("gps_points", JList [JDict [("id", JScalar (VInt 1))]]);
    ("total_images", int_zero);
    ("data_size_mb", float_zero) ].

End Serializer.

(* ================================================================== *)
(** ** The table after the migration                                   *)
(* ================================================================== *)

Module Rows.

Import Py Orm Migration.

(** What the migration makes of one row: its conversion when every
    coordinate text is accepted, the row itself otherwise. *)
Definition migrated (p : GPSPath) : GPSPath :=
  if Spec.accepted p then fst (convert_point p) else p.

(** The columns that are not coordinates. *)
Definition other_columns (p : GPSPath) : Z * Z * Float.float * Z :=
  (id p, scan p, accuracy p, timestamp p).

Definition holds_text (p : GPSPath) : bool :=
  isinstance_str (latitude p) || isinstance_str (longitude p).

(** A table whose coordinates are all numbers already. *)
Definition converted : list GPSPath :=
  [ Sample.point 3 (Sample.f false 10 0) (Sample.f true 20 0);
    Sample.point 6 (VInt 90) (Sample.f true 180 0) ].

End Rows.

Import Py Orm Migration.

(* ================================================================== *)
(** ** The text that [float] accepts                                   *)
(* ================================================================== *)

Section Characters.

Local Open Scope char_scope.

Ltac each_char c :=
  destruct c as [[] [] [] [] [] [] [] []]; vm_compute;
  repeat split; intros; try reflexivity; try discriminate.



Lemma space_facts c :
  PyStr.is_space c = true ->
  (PyStr.code c <? 127)%Z = true /\ PyStr.is_underscore c = false /\
  Spec.is_point c = false /\ PyStr.is_digit c = false.
Proof. each_char c. Qed.

Lemma digit_facts c :
  PyStr.is_digit c = true ->
  (PyStr.code c <? 127)%Z = true /\ PyStr.is_underscore c = false /\
  Spec.is_point c = false /\ PyStr.is_space c = false.
Proof. each_char c. Qed.

Lemma point_facts c :
  Spec.is_point c = true ->
  (PyStr.code c <? 127)%Z = true /\ PyStr.is_underscore c = false /\
  PyStr.is_digit c = false /\ PyStr.is_space c = false.
Proof. each_char c. Qed.

Lemma sign_facts c :
  Spec.is_sign c = true ->
  (PyStr.code c <? 127)%Z = true /\ PyStr.is_underscore c = false /\
  Spec.is_point c = false /\ PyStr.is_digit c = false /\ PyStr.is_space c = false.
Proof. each_char c. Qed.

Lemma exponent_mark_facts c :
  Ascii.eqb (PyStr.to_lower c) "e" = true ->
  Spec.is_point c = false /\ PyStr.is_digit c = false.
Proof. each_char c. Qed.

Lemma underscore_facts c :
  PyStr.is_underscore c = true -> Spec.is_point c = false /\ PyStr.is_digit c = false.
Proof. each_char c. Qed.

Lemma to_lower_point c : Spec.is_point (PyStr.to_lower c) = Spec.is_point c.
Proof. each_char c. Qed.

Lemma to_lower_digit c : PyStr.is_digit (PyStr.to_lower c) = PyStr.is_digit c.
Proof. each_char c. Qed.

End Characters.

(** *** Code points *)

Lemma code_of_code c : 0 <= c < 256 -> PyStr.code (PyStr.ascii_of_code c) = c.
Proof.
  intros H. unfold PyStr.code, PyStr.ascii_of_code.
  rewrite N_ascii_embedding; lia.
Qed.

Lemma ascii_of_code_code a : PyStr.ascii_of_code (PyStr.code a) = a.
Proof.
  unfold PyStr.code, PyStr.ascii_of_code. rewrite N2Z.id. apply ascii_N_embedding.
Qed.

Lemma code_range a : 0 <= PyStr.code a < 256.
Proof.
  unfold PyStr.code. pose proof (N_ascii_bounded a). lia.
Qed.

Lemma to_ascii_plain a : (PyStr.code a <? 127) = true -> PyStr.to_ascii (PyStr.code a) = a.
Proof.
  intros H. unfold PyStr.to_ascii. pose proof (code_range a).
  rewrite H. replace (0 <=? PyStr.code a) with true by (symmetry; apply Z.leb_le; lia).
  apply ascii_of_code_code.
Qed.

Lemma decimal_digit_range c d : PyStr.decimal_digit c = Some d -> 0 <= d <= 9.
Proof.
  unfold PyStr.decimal_digit.
  destruct (find _ PyStr.decimal_zeros) as [z |] eqn:E; [| discriminate].
  apply find_some in E. destruct E as [_ E]. intros H; inversion H; subst. lia.
Qed.

Lemma point_of_code a : Spec.is_point a = (PyStr.code a =? 46).
Proof. destruct a as [[] [] [] [] [] [] [] []]; reflexivity. Qed.

Lemma digit_of_code a :
  PyStr.is_digit a = (48 <=? PyStr.code a) && (PyStr.code a <=? 57).
Proof. reflexivity. Qed.

(** What a code point is read as is a point only for the point itself. *)
Lemma to_ascii_point c : Spec.is_point (PyStr.to_ascii c) = (c =? 46).
Proof.
  unfold PyStr.to_ascii.
  destruct ((0 <=? c) && (c <? 127)) eqn:Hc.
  - apply andb_true_iff in Hc. destruct Hc as [H0 H1].
    apply Z.leb_le in H0. apply Z.ltb_lt in H1.
    rewrite point_of_code, code_of_code by lia. reflexivity.
  - assert (Hne : (c =? 46) = false).
    { apply Z.eqb_neq. intros ->. discriminate. }
    rewrite Hne. destruct (PyStr.is_unicode_space c); [reflexivity |].
    destruct (PyStr.decimal_digit c) as [d |] eqn:Hd; [| reflexivity].
    apply decimal_digit_range in Hd.
    rewrite point_of_code, code_of_code by lia. apply Z.eqb_neq. lia.
Qed.

(** A text of plain ASCII is read as it is. *)
Lemma decode_plain l :
  (forall a, In a l -> (PyStr.code a <? 127) = true) ->
  map PyStr.to_ascii (PyStr.decode l) = l.
Proof.
  induction l as [| a l IH]; intros H; [reflexivity |].
  assert (Ha : (PyStr.code a <? 127) = true) by (apply H; now left).
  cbn [PyStr.decode].
  replace (PyStr.code a <? 128) with true
    by (symmetry; apply Z.ltb_lt; apply Z.ltb_lt in Ha; lia).
  cbn [map]. rewrite (to_ascii_plain a Ha), IH; [reflexivity |].
  intros; apply H; now right.
Qed.

Lemma points_normalise s :
  Grammar.points s = Spec.count Spec.is_point (PyStr.normalise s).
Proof.
  unfold Grammar.points, PyStr.normalise, Spec.count.
  induction (PyStr.decode (list_ascii_of_string s)) as [| c l IH]; [reflexivity |].
  cbn [filter map]. rewrite to_ascii_point, (Z.eqb_sym 46 c).
  destruct (c =? 46); cbn [List.length]; now rewrite IH.
Qed.

Lemma blank_normalise s :
  Grammar.blank s = forallb PyStr.is_space (PyStr.normalise s).
Proof.
  unfold Grammar.blank, PyStr.normalise.
  induction (PyStr.decode (list_ascii_of_string s)) as [| c l IH]; [reflexivity |].
  cbn [forallb map]. now rewrite IH.
Qed.

Section Counting.

Variable f : ascii -> bool.

Lemma count_app l1 l2 : Spec.count f (l1 ++ l2) = (Spec.count f l1 + Spec.count f l2)%nat.
Proof. unfold Spec.count. now rewrite filter_app, length_app. Qed.

Lemma count_cons c l :
  Spec.count f (c :: l) = ((if f c then 1 else 0) + Spec.count f l)%nat.
Proof. unfold Spec.count. cbn. now destruct (f c). Qed.

Lemma count_none l :
  (forall c, In c l -> f c = false) -> Spec.count f l = 0%nat.
Proof.
  induction l as [| c l IH]; intros H; [reflexivity |].
  rewrite count_cons, (H c (or_introl eq_refl)), IH; [reflexivity |].
  intros; apply H; now right.
Qed.

Lemma count_all l :
  forallb f l = true -> Spec.count f l = List.length l.
Proof.
  induction l as [| c l IH]; [reflexivity |].
  cbn [forallb]. intros H. apply andb_true_iff in H. destruct H as [Hc Hl].
  rewrite count_cons, Hc, IH by exact Hl. reflexivity.
Qed.

(** A class that holds of no member of [g]. *)
Lemma count_disjoint (g : ascii -> bool) l :
  (forall c, g c = true -> f c = false) ->
  forallb g l = true -> Spec.count f l = 0%nat.
Proof.
  intros Hgf Hl. apply count_none. intros c Hc.
  rewrite forallb_forall in Hl. auto.
Qed.

Lemma count_map (h : ascii -> ascii) l :
  (forall c, f (h c) = f c) -> Spec.count f (map h l) = Spec.count f l.
Proof.
  intros Hh. induction l as [| c l IH]; [reflexivity |].
  cbn [map]. now rewrite !count_cons, Hh, IH.
Qed.

End Counting.

Lemma digits_have_no_point d :
  forallb PyStr.is_digit d = true -> Spec.count Spec.is_point d = 0%nat.
Proof. apply count_disjoint. intros c Hc. apply (digit_facts c Hc). Qed.

Lemma spaces_have_no_point ws :
  forallb PyStr.is_space ws = true -> Spec.count Spec.is_point ws = 0%nat.
Proof. apply count_disjoint. intros c Hc. apply (space_facts c Hc). Qed.

Lemma spaces_have_no_digit ws :
  forallb PyStr.is_space ws = true -> Spec.count PyStr.is_digit ws = 0%nat.
Proof. apply count_disjoint. intros c Hc. apply (space_facts c Hc). Qed.

(** *** White space *)

Lemma lstrip_split l :
  exists ws, l = ws ++ PyStr.lstrip l /\ forallb PyStr.is_space ws = true.
Proof.
  induction l as [| c l (ws & Hl & Hws)]; [exists []; auto |].
  cbn. destruct (PyStr.is_space c) eqn:Hc.
  - exists (c :: ws). cbn. rewrite Hc, Hws. split; [congruence | reflexivity].
  - exists []. auto.
Qed.

Lemma rstrip_split l :
  exists ws, l = PyStr.rstrip l ++ ws /\ forallb PyStr.is_space ws = true.
Proof.
  unfold PyStr.rstrip. destruct (lstrip_split (rev l)) as (ws & Hl & Hws).
  exists (rev ws). split.
  - rewrite <- rev_app_distr, <- Hl. symmetry. apply rev_involutive.
  - rewrite forallb_forall in *. intros c Hc. apply Hws. now apply in_rev.
Qed.

Lemma strip_split l :
  exists ws1 ws2,
    l = ws1 ++ PyStr.rstrip (PyStr.lstrip l) ++ ws2 /\
    forallb PyStr.is_space ws1 = true /\ forallb PyStr.is_space ws2 = true.
Proof.
  destruct (lstrip_split l) as (ws1 & H1 & Hws1).
  destruct (rstrip_split (PyStr.lstrip l)) as (ws2 & H2 & Hws2).
  exists ws1, ws2. split; [| auto]. now rewrite <- H2.
Qed.

Lemma lstrip_spaces ws : forallb PyStr.is_space ws = true -> PyStr.lstrip ws = [].
Proof.
  induction ws as [| c ws IH]; cbn; [reflexivity |].
  intros H. apply andb_true_iff in H. destruct H as [-> H]. auto.
Qed.

(** Stripping changes neither the points nor the digits of a text. *)
Lemma count_strip f l :
  (forall c, PyStr.is_space c = true -> f c = false) ->
  Spec.count f (PyStr.rstrip (PyStr.lstrip l)) = Spec.count f l.
Proof.
  intros Hf. destruct (strip_split l) as (ws1 & ws2 & Hl & H1 & H2).
  rewrite Hl at 2. rewrite !count_app.
  rewrite (count_disjoint f PyStr.is_space ws1 Hf H1).
  rewrite (count_disjoint f PyStr.is_space ws2 Hf H2). lia.
Qed.

(** *** Underscores *)

Lemma strip_underscores_filter prev l l' :
  PyStr.strip_underscores prev l = Some l' ->
  l' = filter (fun c => negb (PyStr.is_underscore c)) l.
Proof.
  revert prev l'. induction l as [| c l IH]; intros prev l'; cbn.
  - destruct (PyStr.is_underscore prev); intros H; inversion H; reflexivity.
  - destruct (PyStr.is_underscore c); cbn.
    + destruct (PyStr.is_digit prev); [apply IH | discriminate].
    + destruct (PyStr.is_underscore prev && negb (PyStr.is_digit c)); [discriminate |].
      destruct (PyStr.strip_underscores c l) as [l0 |] eqn:E; cbn; [| discriminate].
      intros H; inversion H. f_equal. now apply (IH c).
Qed.

Lemma count_strip_underscores f prev l l' :
  (forall c, PyStr.is_underscore c = true -> f c = false) ->
  PyStr.strip_underscores prev l = Some l' ->
  Spec.count f l' = Spec.count f l.
Proof.
  intros Hf H. apply strip_underscores_filter in H. subst l'.
  induction l as [| c l IH]; [reflexivity |].
  cbn [filter]. destruct (PyStr.is_underscore c) eqn:Hc; cbn [negb].
  - rewrite count_cons, (Hf c Hc). exact IH.
  - now rewrite !count_cons, IH.
Qed.

Lemma strip_underscores_none prev l :
  PyStr.is_underscore prev = false ->
  (forall c, In c l -> PyStr.is_underscore c = false) ->
  PyStr.strip_underscores prev l = Some l.
Proof.
  revert prev. induction l as [| c l IH]; intros prev Hp Hl; cbn.
  - now rewrite Hp.
  - rewrite (Hl c (or_introl eq_refl)), Hp. cbn.
    rewrite IH; [reflexivity | apply Hl; now left | intros; apply Hl; now right].
Qed.

(** *** The number grammar *)

Ltac reassoc := cbn [app]; rewrite <- ?app_assoc; cbn [app]; reflexivity.

Lemma span_digits_split l d r :
  PyStr.span_digits l = (d, r) ->
  l = d ++ r /\ forallb PyStr.is_digit d = true /\
  (forall c t, r = c :: t -> PyStr.is_digit c = false).
Proof.
  revert d r. induction l as [| a l IH]; intros d r; cbn.
  - intros H; inversion H; subst. repeat split. discriminate.
  - destruct (PyStr.is_digit a) eqn:Ha.
    + destruct (PyStr.span_digits l) as [d0 r0].
      intros H; inversion H; subst.
      destruct (IH d0 r eq_refl) as (-> & Hd & Hr).
      cbn. rewrite Ha, Hd. auto.
    + intros H; inversion H; subst. repeat split.
      intros c t E; inversion E; subst; exact Ha.
Qed.

Lemma span_digits_all d :
  forallb PyStr.is_digit d = true -> PyStr.span_digits d = (d, []).
Proof.
  induction d as [| a d IH]; cbn; [reflexivity |].
  intros H. apply andb_true_iff in H. destruct H as [-> H].
  now rewrite IH.
Qed.

Lemma take_sign_split l neg t :
  PyStr.take_sign l = (neg, t) ->
  exists sg, l = sg ++ t /\ forallb Spec.is_sign sg = true.
Proof.
  destruct l as [| c l]; cbn.
  - intros H; inversion H. exists []. auto.
  - destruct (Ascii.eqb c "-") eqn:E1; [| destruct (Ascii.eqb c "+") eqn:E2];
      intros H; inversion H; subst.
    + exists [c]. cbn. unfold Spec.is_sign. now rewrite E1.
    + exists [c]. cbn. unfold Spec.is_sign. now rewrite E1, E2.
    + exists []. auto.
Qed.

Lemma signs_have_no_point sg :
  forallb Spec.is_sign sg = true -> Spec.count Spec.is_point sg = 0%nat.
Proof. apply count_disjoint. intros c Hc. apply (sign_facts c Hc). Qed.

Lemma take_fraction_split l fp r :
  PyStr.take_fraction l = (fp, r) ->
  exists pt, l = pt ++ fp ++ r /\ (Spec.count Spec.is_point pt <= 1)%nat /\
             forallb PyStr.is_digit fp = true.
Proof.
  destruct l as [| c l]; cbn.
  - intros H; inversion H. exists []. cbn. auto.
  - destruct (Ascii.eqb c ".") eqn:E.
    + intros H. destruct (span_digits_split _ _ _ H) as (-> & Hd & _).
      exists [c]. split; [reflexivity |]. split; [| exact Hd].
      rewrite count_cons. destruct (Spec.is_point c); cbn; lia.
    + intros H; inversion H. exists []. cbn. auto.
Qed.

Lemma take_exponent_split l ex r :
  PyStr.take_exponent l = (ex, r) ->
  exists ec, l = ec ++ r /\ Spec.count Spec.is_point ec = 0%nat.
Proof.
  unfold PyStr.take_exponent. destruct l as [| c l].
  - intros H; inversion H. now exists [].
  - destruct (Ascii.eqb (PyStr.to_lower c) "e") eqn:Ec;
      [| intros H; inversion H; now exists []].
    destruct (PyStr.take_sign l) as [eneg t1] eqn:Hs.
    destruct (PyStr.span_digits t1) as [d t2] eqn:Hd.
    destruct d as [| a d]; [intros H; inversion H; now exists [] |].
    intros H; inversion H; subst.
    destruct (take_sign_split _ _ _ Hs) as (sg & -> & Hsg).
    destruct (span_digits_split _ _ _ Hd) as (-> & Hds & _).
    exists (c :: sg ++ a :: d). split; [reassoc |].
    rewrite count_cons, count_app.
    destruct (exponent_mark_facts c Ec) as [-> _].
    rewrite (signs_have_no_point sg Hsg), (digits_have_no_point _ Hds). reflexivity.
Qed.

(** The size of a number. *)
Lemma significant_length d :
  (List.length (PyStr.significant d) <= List.length d)%nat.
Proof.
  induction d as [| c d IH]; cbn; [lia |].
  destruct (Ascii.eqb c "0"); cbn; lia.
Qed.

Lemma too_long_sized ip fp :
  PyStr.too_long ip fp = false <-> Grammar.sized ip fp.
Proof.
  unfold PyStr.too_long, Grammar.sized.
  rewrite orb_false_iff, !Z.ltb_ge. reflexivity.
Qed.

Lemma short_is_sized ip fp :
  Z.of_nat (List.length (ip ++ fp)) <= PyStr.max_digits -> Grammar.sized ip fp.
Proof.
  intros H. pose proof (significant_length (ip ++ fp)) as Hs.
  pose proof (length_app ip fp) as Ha. unfold Grammar.sized. lia.
Qed.

Lemma length_list_ascii_of_string s :
  List.length (list_ascii_of_string s) = String.length s.
Proof. induction s as [| c s IH]; cbn; [reflexivity | now rewrite IH]. Qed.

(** What [strtod] reads holds at most one point and at least one digit. *)
Lemma strtod_consumes l x rest :
  PyStr.strtod l = Some (x, rest) ->
  exists c, l = c ++ rest /\
            (Spec.count Spec.is_point c <= 1)%nat /\
            (1 <= Spec.count PyStr.is_digit c)%nat.
Proof.
  unfold PyStr.strtod.
  destruct (PyStr.take_sign l) as [neg l1] eqn:Hs.
  destruct (PyStr.span_digits l1) as [ip l2] eqn:Hi.
  destruct (PyStr.take_fraction l2) as [fp l3] eqn:Hf.
  destruct (ip ++ fp) as [| a ds] eqn:Hd; [discriminate |].
  destruct (PyStr.too_long ip fp); [discriminate |].
  destruct (PyStr.take_exponent l3) as [ex l4] eqn:He.
  intros H; inversion H; subst; clear H.
  destruct (take_sign_split _ _ _ Hs) as (sg & -> & Hsg).
  destruct (span_digits_split _ _ _ Hi) as (-> & Hip & _).
  destruct (take_fraction_split _ _ _ Hf) as (pt & -> & Hpt & Hfp).
  destruct (take_exponent_split _ _ _ He) as (ec & -> & Hec).
  exists (sg ++ ip ++ pt ++ fp ++ ec). split; [reassoc |].
  rewrite !count_app.
  rewrite (signs_have_no_point sg Hsg), (digits_have_no_point ip Hip),
    (digits_have_no_point fp Hfp), Hec.
  rewrite (count_all _ ip Hip), (count_all _ fp Hfp).
  assert (1 <= List.length ip + List.length fp)%nat.
  { rewrite <- length_app, Hd. cbn. lia. }
  lia.
Qed.

Lemma match_ci_split t s r :
  PyStr.match_ci t s = Some r -> exists c, s = c ++ r /\ map PyStr.to_lower c = t.
Proof.
  revert s. induction t as [| a t IH]; intros s; cbn.
  - intros H; inversion H. now exists [].
  - destruct s as [| c s]; [discriminate |].
    destruct (Ascii.eqb (PyStr.to_lower c) a) eqn:E; [| discriminate].
    intros H. destruct (IH s H) as (c0 & -> & <-).
    apply Ascii.eqb_eq in E. exists (c :: c0). cbn. now rewrite E.
Qed.

Lemma match_ci_no_point t s r :
  PyStr.match_ci t s = Some r ->
  exists c, s = c ++ r /\ Spec.count Spec.is_point c = Spec.count Spec.is_point t.
Proof.
  intros H. destruct (match_ci_split t s r H) as (c & -> & <-).
  exists c. split; [reflexivity |].
  symmetry. apply count_map, to_lower_point.
Qed.

(** What [parse_inf_or_nan] reads holds no point, and its value is not
    finite. *)
Lemma parse_inf_or_nan_consumes l x rest :
  PyStr.parse_inf_or_nan l = Some (x, rest) ->
  Float.is_finite x = false /\
  exists c, l = c ++ rest /\ Spec.count Spec.is_point c = 0%nat.
Proof.
  unfold PyStr.parse_inf_or_nan.
  destruct (PyStr.take_sign l) as [neg s] eqn:Hs.
  destruct (take_sign_split _ _ _ Hs) as (sg & -> & Hsg).
  pose proof (signs_have_no_point sg Hsg) as Hsg0.
  destruct (PyStr.match_ci _ s) as [s1 |] eqn:H1.
  - destruct (match_ci_no_point _ _ _ H1) as (c1 & -> & Hc1).
    destruct (PyStr.match_ci _ s1) as [s2 |] eqn:H2.
    + destruct (match_ci_no_point _ _ _ H2) as (c2 & -> & Hc2).
      intros H; inversion H; subst. split; [reflexivity |].
      exists (sg ++ c1 ++ c2). split; [reassoc |].
      rewrite !count_app, Hsg0, Hc1, Hc2. reflexivity.
    + intros H; inversion H; subst. split; [reflexivity |].
      exists (sg ++ c1). split; [reassoc |].
      rewrite !count_app, Hsg0, Hc1. reflexivity.
  - match goal with
    | |- context [PyStr.match_ci ?t s] =>
        destruct (PyStr.match_ci t s) as [s1 |] eqn:H2; [| discriminate]
    end.
    destruct (match_ci_no_point _ _ _ H2) as (c1 & -> & Hc1).
    intros H; inversion H; subst. split; [reflexivity |].
    exists (sg ++ c1). split; [reassoc |].
    rewrite !count_app, Hsg0, Hc1. reflexivity.
Qed.

(** A text that is read to its end as one number. *)
Lemma ascii_strtod_whole l x :
  PyStr.ascii_strtod l = Some (x, []) ->
  (Spec.count Spec.is_point l <= 1)%nat /\
  (Float.is_finite x = true -> (1 <= Spec.count PyStr.is_digit l)%nat).
Proof.
  unfold PyStr.ascii_strtod.
  destruct (PyStr.strtod l) as [[y r] |] eqn:Hn.
  - intros H; inversion H; subst.
    destruct (strtod_consumes _ _ _ Hn) as (c & -> & Hp & Hd).
    rewrite app_nil_r. auto.
  - intros H. destruct (parse_inf_or_nan_consumes _ _ _ H) as (Hx & c & -> & Hp).
    rewrite app_nil_r, Hp. split; [lia | congruence].
Qed.

(** The same, for the whole of [float_from_string]. *)
Lemma float_from_string_accepts s x :
  PyStr.float_from_string s = Some x ->
  (Spec.count Spec.is_point (PyStr.normalise s) <= 1)%nat.
Proof.
  unfold PyStr.float_from_string, PyStr.float_from_string_inner.
  destruct (PyStr.strip_underscores _ _) as [l |] eqn:Hu; [| discriminate].
  destruct (PyStr.rstrip (PyStr.lstrip l)) as [| a core] eqn:Hc; [discriminate |].
  destruct (PyStr.ascii_strtod (a :: core)) as [[y r] |] eqn:Hn; [| discriminate].
  destruct r; [| discriminate]. intros H; inversion H; subst.
  destruct (ascii_strtod_whole _ _ Hn) as [Hp _].
  rewrite <- Hc in Hp.
  rewrite count_strip in Hp by (intros c Hs; apply (space_facts c Hs)).
  rewrite (count_strip_underscores _ _ _ _
             (fun c Hc' => proj1 (underscore_facts c Hc')) Hu) in Hp.
  exact Hp.
Qed.

(** *** The decimal forms of the specification are accepted *)

Lemma digits_or_points_without_point t :
  forallb (fun c => PyStr.is_digit c || Spec.is_point c) t = true ->
  Spec.count Spec.is_point t = 0%nat ->
  forallb PyStr.is_digit t = true.
Proof.
  induction t as [| c t IH]; [reflexivity |].
  cbn [forallb]. rewrite count_cons. intros H Hp.
  apply andb_true_iff in H. destruct H as [Hc Ht].
  destruct (Spec.is_point c); [discriminate |].
  rewrite orb_false_r in Hc. rewrite Hc. apply IH; [exact Ht | exact Hp].
Qed.

Lemma strtod_simple l neg body :
  PyStr.take_sign l = (neg, body) ->
  forallb (fun c => PyStr.is_digit c || Spec.is_point c) body = true ->
  (Spec.count Spec.is_point body <= 1)%nat ->
  (1 <= Spec.count PyStr.is_digit body)%nat ->
  Z.of_nat (List.length body) <= PyStr.max_digits ->
  exists x, PyStr.strtod l = Some (x, []).
Proof.
  intros Hs Hall Hp Hd Hsize. unfold PyStr.strtod. rewrite Hs.
  destruct (PyStr.span_digits body) as [ip l2] eqn:Hi.
  destruct (span_digits_split _ _ _ Hi) as (-> & Hip & Hhead).
  destruct l2 as [| c t].
  - cbn [PyStr.take_fraction].
    rewrite (proj2 (too_long_sized ip []) (short_is_sized ip [] Hsize)).
    rewrite app_nil_r in *.
    destruct ip as [| a ip]; [cbn in Hd; lia |].
    cbn. eexists. reflexivity.
  - pose proof (Hhead c t eq_refl) as Hc.
    rewrite forallb_app in Hall. apply andb_true_iff in Hall.
    destruct Hall as [_ Hall]. cbn [forallb] in Hall.
    apply andb_true_iff in Hall. destruct Hall as [Hcp Ht].
    rewrite Hc in Hcp. cbn [orb] in Hcp.
    rewrite count_app, count_cons, Hcp, (digits_have_no_point ip Hip) in Hp.
    assert (Htd : forallb PyStr.is_digit t = true)
      by (apply digits_or_points_without_point; [exact Ht | lia]).
    unfold PyStr.take_fraction. unfold Spec.is_point in Hcp. rewrite Hcp.
    rewrite (span_digits_all t Htd).
    assert (Hshort : Z.of_nat (List.length (ip ++ t)) <= PyStr.max_digits).
    { rewrite length_app in *. cbn [List.length] in Hsize. lia. }
    rewrite (proj2 (too_long_sized ip t) (short_is_sized ip t Hshort)).
    destruct (ip ++ t) as [| a ds] eqn:E.
    + apply app_eq_nil in E. destruct E as [-> ->].
      cbn in Hd. rewrite Hc in Hd. cbn in Hd. lia.
    + cbn. eexists. reflexivity.
Qed.

Lemma simple_decimal_accepted s :
  Spec.simple_decimal s = true ->
  Z.of_nat (String.length s) <= PyStr.max_digits ->
  exists x, PyStr.float_from_string s = Some x.
Proof.
  unfold Spec.simple_decimal. rewrite <- length_list_ascii_of_string.
  set (l0 := list_ascii_of_string s).
  destruct (PyStr.take_sign (PyStr.rstrip (PyStr.lstrip l0))) as [neg body] eqn:Hs.
  cbn [snd]. rewrite !andb_true_iff, !Nat.leb_le. intros [[Hall Hp] Hd] Hsize.
  assert (Hbody : Z.of_nat (List.length body) <= PyStr.max_digits).
  { destruct (strip_split l0) as (ws1 & ws2 & Hl & _).
    destruct (take_sign_split _ _ _ Hs) as (sg & Hcore & _).
    rewrite Hl, Hcore, !length_app in Hsize. lia. }
  destruct (strtod_simple _ _ _ Hs Hall Hp Hd Hbody) as [x Hx].
  (* every character is plain ASCII, and none is an underscore *)
  assert (Hplain : forall c, In c l0 ->
            (PyStr.code c <? 127) = true /\ PyStr.is_underscore c = false).
  { destruct (strip_split l0) as (ws1 & ws2 & Hl & H1 & H2).
    destruct (take_sign_split _ _ _ Hs) as (sg & Hcore & Hsg).
    rewrite Hcore in Hl. rewrite forallb_forall in H1, H2, Hsg, Hall.
    intros c Hc. rewrite Hl in Hc.
    repeat (apply in_app_or in Hc; destruct Hc as [Hc | Hc]).
    - split; apply (space_facts c (H1 c Hc)).
    - split; apply (sign_facts c (Hsg c Hc)).
    - specialize (Hall c Hc). apply orb_true_iff in Hall.
      destruct Hall as [Hdg | Hpt].
      + split; apply (digit_facts c Hdg).
      + split; apply (point_facts c Hpt).
    - split; apply (space_facts c (H2 c Hc)). }
  unfold PyStr.float_from_string, PyStr.normalise. fold l0.
  assert (Hmap : map PyStr.to_ascii (PyStr.decode l0) = l0).
  { apply decode_plain. intros c Hc. apply (Hplain c Hc). }
  rewrite Hmap, strip_underscores_none;
    [| reflexivity | intros c Hc; apply (Hplain c Hc)].
  unfold PyStr.float_from_string_inner, PyStr.ascii_strtod.
  destruct (PyStr.rstrip (PyStr.lstrip l0)) as [| a core].
  - cbn in Hs. inversion Hs; subst. cbn in Hd. lia.
  - rewrite Hx. exists x. reflexivity.
Qed.

(** *** Texts that are refused *)

Lemma blank_refused s :
  Grammar.blank s = true -> PyStr.float_from_string s = None.
Proof.
  rewrite blank_normalise. intros H. unfold PyStr.float_from_string.
  destruct (PyStr.strip_underscores _ _) as [l |] eqn:Hu; [| reflexivity].
  apply strip_underscores_filter in Hu.
  assert (Hl : forallb PyStr.is_space l = true).
  { rewrite forallb_forall in *. intros c Hc. rewrite Hu in Hc.
    apply filter_In in Hc. destruct Hc as [Hc _]. now apply H. }
  unfold PyStr.float_from_string_inner. now rewrite (lstrip_spaces l Hl).
Qed.

Lemma two_points_refused s :
  (2 <= Grammar.points s)%nat -> PyStr.float_from_string s = None.
Proof.
  rewrite points_normalise. intros H.
  destruct (PyStr.float_from_string s) as [x |] eqn:E; [| reflexivity].
  apply float_from_string_accepts in E. lia.
Qed.



(* ================================================================== *)
(** ** The parser and the grammar                                      *)
(* ================================================================== *)

Section GrammarFacts.

Local Open Scope char_scope.

Ltac each_char c :=
  destruct c as [[] [] [] [] [] [] [] []]; vm_compute;
  repeat split; intros; try reflexivity; try discriminate.

Lemma space_lower c : PyStr.is_space c = true -> PyStr.is_space (PyStr.to_lower c) = true.
Proof. each_char c. Qed.

Lemma lower_e_facts c :
  Ascii.eqb (PyStr.to_lower c) "e" = true ->
  PyStr.is_digit c = false /\ Ascii.eqb c "." = false /\ PyStr.is_space c = false.
Proof. each_char c. Qed.

Lemma lower_i_n_facts c :
  Ascii.eqb (PyStr.to_lower c) "i" || Ascii.eqb (PyStr.to_lower c) "n" = true ->
  PyStr.is_digit c = false /\ Ascii.eqb c "." = false /\ Spec.is_sign c = false.
Proof. each_char c. Qed.

Lemma digit_or_point_not_sign c :
  PyStr.is_digit c || Ascii.eqb c "." = true -> Spec.is_sign c = false.
Proof. each_char c. Qed.

Lemma not_sign c :
  Spec.is_sign c = false -> Ascii.eqb c "-" = false /\ Ascii.eqb c "+" = false.
Proof. each_char c. Qed.

End GrammarFacts.

(** *** Underscores *)

Lemma last_cons (c : ascii) a d : last (c :: a) d = last a c.
Proof.
  revert c d. induction a as [| x a IH]; intros c d; [reflexivity |].
  change (last (c :: x :: a) d) with (last (x :: a) d).
  now rewrite (IH x d), (IH x c).
Qed.

Lemma strip_underscores_spec prev l l' :
  PyStr.strip_underscores prev l = Some l' <->
  (PyStr.is_underscore prev = true -> PyStr.is_digit (hd "000"%char l) = true) /\
  (forall a b, l = a ++ "_"%char :: b ->
     PyStr.is_digit (last a prev) = true /\ PyStr.is_digit (hd "000"%char b) = true) /\
  l' = Grammar.without_underscores l.
Proof.
  revert prev l'. induction l as [| c t IH]; intros prev l'.
  - cbn. destruct (PyStr.is_underscore prev) eqn:Hp; split.
    + discriminate.
    + intros [H _]. specialize (H eq_refl). discriminate.
    + intros H; inversion H. split; [discriminate |]. split; [| reflexivity].
      intros a b E. destruct a; discriminate.
    + intros (_ & _ & ->). reflexivity.
  - cbn [PyStr.strip_underscores]. unfold Grammar.without_underscores. cbn [filter hd].
    destruct (PyStr.is_underscore c) eqn:Hc; cbn [negb].
    + assert (Ec : c = "_"%char) by (now apply Ascii.eqb_eq).
      destruct (PyStr.is_digit prev) eqn:Hd; split.
      * intros H. apply IH in H. destruct H as (H1 & H2 & H3).
        split; [| split; [| exact H3]].
        -- intros Hu. destruct (digit_facts prev Hd) as (_ & Hn & _). congruence.
        -- intros a b E. destruct a as [| x a]; cbn in E; inversion E; subst.
           ++ cbn. split; [exact Hd | now apply H1].
           ++ rewrite last_cons. now apply H2.
      * intros (H1 & H2 & H3). apply IH. split; [| split; [| exact H3]].
        -- intros _. apply (H2 [] t). now rewrite Ec.
        -- intros a b E. rewrite <- (last_cons c a prev). apply H2. now rewrite E.
      * discriminate.
      * intros (_ & H2 & _). destruct (H2 [] t) as [H _]; [now rewrite Ec |].
        cbn in H. congruence.
    + destruct (PyStr.is_underscore prev && negb (PyStr.is_digit c)) eqn:Hg; split.
      * discriminate.
      * intros (H1 & _ & _). apply andb_true_iff in Hg. destruct Hg as [Hu Hn].
        rewrite (H1 Hu) in Hn. discriminate.
      * destruct (PyStr.strip_underscores c t) as [l0 |] eqn:E; cbn; [| discriminate].
        intros H; inversion H; subst. apply IH in E. destruct E as (_ & E2 & ->).
        split; [| split; [| reflexivity]].
        -- intros Hu. rewrite Hu in Hg. cbn in Hg. now apply negb_false_iff in Hg.
        -- intros a b E. destruct a as [| x a]; cbn in E; inversion E; subst.
           ++ discriminate.
           ++ rewrite last_cons. now apply E2.
      * intros (_ & H2 & ->).
        assert (E : PyStr.strip_underscores c t = Some (Grammar.without_underscores t)).
        { apply IH. split; [intros Hu; congruence |]. split; [| reflexivity].
          intros a b E. rewrite <- (last_cons c a prev). apply H2. now rewrite E. }
        now rewrite E.
Qed.

Lemma strip_underscores_grammar l l' :
  PyStr.strip_underscores "000"%char l = Some l' <->
  Grammar.underscores_between_digits l /\ l' = Grammar.without_underscores l.
Proof.
  rewrite strip_underscores_spec. unfold Grammar.underscores_between_digits.
  split.
  - intros (_ & H & E). auto.
  - intros (H & E). split; [discriminate | auto].
Qed.


(** *** White space around a literal *)

Lemma lstrip_app_white ws l :
  Grammar.white ws -> PyStr.lstrip (ws ++ l) = PyStr.lstrip l.
Proof.
  unfold Grammar.white. induction ws as [| c ws IH]; [reflexivity |].
  cbn. intros H. apply andb_true_iff in H. destruct H as [-> H]. auto.
Qed.

Lemma lstrip_solid_head c l :
  PyStr.is_space c = false -> PyStr.lstrip (c :: l) = c :: l.
Proof. cbn. now intros ->. Qed.

Lemma solid_app l1 l2 : Grammar.solid (l1 ++ l2) <-> Grammar.solid l1 /\ Grammar.solid l2.
Proof. unfold Grammar.solid. rewrite forallb_app. apply andb_true_iff. Qed.

Lemma solid_rev l : Grammar.solid l -> Grammar.solid (rev l).
Proof.
  unfold Grammar.solid. rewrite !forallb_forall. intros H c Hc.
  apply H. now apply in_rev.
Qed.

Lemma lstrip_solid l : Grammar.solid l -> PyStr.lstrip l = l.
Proof.
  destruct l as [| c l]; [reflexivity |]. unfold Grammar.solid. cbn.
  intros H. apply andb_true_iff in H. destruct H as [H _].
  apply negb_true_iff in H. now rewrite H.
Qed.

(** A text without white space, and not empty, is what stripping leaves of
    it and the white space around it. *)
Lemma strip_around ws1 core ws2 :
  Grammar.white ws1 -> Grammar.white ws2 -> Grammar.solid core -> core <> [] ->
  PyStr.rstrip (PyStr.lstrip (ws1 ++ core ++ ws2)) = core.
Proof.
  intros H1 H2 Hs Hne. rewrite (lstrip_app_white ws1 _ H1).
  destruct core as [| c core]; [contradiction |].
  assert (Hc : PyStr.is_space c = false).
  { unfold Grammar.solid in Hs. cbn in Hs. apply andb_true_iff in Hs.
    destruct Hs as [Hs _]. now apply negb_true_iff in Hs. }
  cbn [app]. rewrite (lstrip_solid_head c _ Hc).
  unfold PyStr.rstrip. change (c :: core ++ ws2) with ((c :: core) ++ ws2).
  rewrite rev_app_distr, lstrip_app_white.
  - rewrite lstrip_solid by (now apply solid_rev). apply rev_involutive.
  - unfold Grammar.white in *. rewrite forallb_forall in *.
    intros x Hx. apply H2. now apply in_rev.
Qed.

Lemma digits_solid d : forallb PyStr.is_digit d = true -> Grammar.solid d.
Proof.
  unfold Grammar.solid. rewrite !forallb_forall. intros H c Hc.
  apply negb_true_iff. apply (digit_facts c (H c Hc)).
Qed.

Lemma sign_cases sg :
  Grammar.sign sg -> forallb Spec.is_sign sg = true.
Proof. intros [-> | [-> | ->]]; reflexivity. Qed.

Lemma sign_solid sg : Grammar.sign sg -> Grammar.solid sg.
Proof. intros [-> | [-> | ->]]; reflexivity. Qed.

Lemma number_solid n : Grammar.number n -> Grammar.solid n /\ n <> [].
Proof.
  intros [ip [Hne Hd] | ip fp Hi Hf Hne].
  - split; [now apply digits_solid | exact Hne].
  - split; [| now destruct ip].
    apply solid_app. split; [now apply digits_solid |].
    change ("."%char :: fp) with (["."%char] ++ fp). apply solid_app.
    split; [reflexivity | now apply digits_solid].
Qed.

Lemma exponent_solid ex : Grammar.exponent ex -> Grammar.solid ex.
Proof.
  intros [| c sg d Hc Hsg [_ Hd]]; [reflexivity |].
  change (c :: sg ++ d) with ([c] ++ sg ++ d). apply solid_app. split.
  - unfold Grammar.solid. cbn. destruct (lower_e_facts c Hc) as (_ & _ & ->). reflexivity.
  - apply solid_app. split; [now apply sign_solid | now apply digits_solid].
Qed.

Lemma word_solid w : Grammar.word w -> Grammar.solid w /\ w <> [].
Proof.
  unfold Grammar.word. intros H. split.
  - unfold Grammar.solid. apply forallb_forall. intros c Hc.
    apply negb_true_iff. destruct (PyStr.is_space c) eqn:Hs; [| reflexivity].
    apply space_lower in Hs.
    assert (Hin : In (PyStr.to_lower c) (map PyStr.to_lower w)) by (now apply in_map).
    cbn in H. destruct H as [H | [H | [H | []]]]; rewrite <- H in Hin; cbn in Hin;
      repeat (destruct Hin as [Hin | Hin]; [rewrite <- Hin in Hs; discriminate |]);
      contradiction.
  - destruct w; [| discriminate].
    cbn in H. destruct H as [H | [H | [H | []]]]; discriminate.
Qed.

Lemma literal_solid core : Grammar.literal core -> Grammar.solid core /\ core <> [].
Proof.
  intros [sg n ex Hsg Hn Hex | sg w Hsg Hw].
  - destruct (number_solid n Hn) as [Hs Hne]. split.
    + apply solid_app. split; [now apply sign_solid |].
      apply solid_app. split; [exact Hs | now apply exponent_solid].
    + destruct sg; [| discriminate]. destruct n; [contradiction | discriminate].
  - destruct (word_solid w Hw) as [Hs Hne]. split.
    + apply solid_app. split; [now apply sign_solid | exact Hs].
    + destruct sg; [| discriminate]. destruct w; [contradiction | discriminate].
Qed.

(** *** From the parser to the grammar *)

Lemma take_sign_grammar l neg t :
  PyStr.take_sign l = (neg, t) -> exists sg, l = sg ++ t /\ Grammar.sign sg.
Proof.
  unfold Grammar.sign. destruct l as [| c l]; cbn.
  - intros H; inversion H. exists []. auto.
  - destruct (Ascii.eqb_spec c "-"%char) as [-> |];
      [| destruct (Ascii.eqb_spec c "+"%char) as [-> |]];
      intros H; inversion H; subst.
    + exists ["-"%char]. auto.
    + exists ["+"%char]. auto.
    + exists []. auto.
Qed.

Lemma take_fraction_grammar l fp r :
  PyStr.take_fraction l = (fp, r) ->
  (l = "."%char :: fp ++ r /\ forallb PyStr.is_digit fp = true) \/ (fp = [] /\ r = l).
Proof.
  destruct l as [| c l]; cbn.
  - intros H; inversion H. auto.
  - destruct (Ascii.eqb_spec c "."%char) as [-> |].
    + intros H. destruct (span_digits_split _ _ _ H) as (-> & Hd & _). auto.
    + intros H; inversion H. auto.
Qed.

Lemma take_exponent_grammar l v :
  PyStr.take_exponent l = (v, []) -> Grammar.exponent l.
Proof.
  unfold PyStr.take_exponent. destruct l as [| c l]; [constructor |].
  destruct (Ascii.eqb (PyStr.to_lower c) "e") eqn:Ec; [| discriminate].
  destruct (PyStr.take_sign l) as [eneg t1] eqn:Hs.
  destruct (PyStr.span_digits t1) as [d t2] eqn:Hd.
  destruct d as [| a d]; [discriminate |].
  intros H; inversion H; subst.
  destruct (take_sign_grammar _ _ _ Hs) as (sg & -> & Hsg).
  destruct (span_digits_split _ _ _ Hd) as (-> & Hds & _).
  rewrite app_nil_r. constructor; [exact Ec | exact Hsg |].
  split; [discriminate | exact Hds].
Qed.

Lemma strtod_grammar l x :
  PyStr.strtod l = Some (x, []) -> Grammar.literal l.
Proof.
  unfold PyStr.strtod.
  destruct (PyStr.take_sign l) as [neg l1] eqn:Hs.
  destruct (PyStr.span_digits l1) as [ip l2] eqn:Hi.
  destruct (PyStr.take_fraction l2) as [fp l3] eqn:Hf.
  destruct (ip ++ fp) as [| a ds] eqn:Hd; [discriminate |].
  destruct (PyStr.too_long ip fp) eqn:Hsize; [discriminate |].
  apply too_long_sized in Hsize.
  destruct (PyStr.take_exponent l3) as [ex l4] eqn:He.
  intros H; inversion H; subst; clear H.
  destruct (take_sign_grammar _ _ _ Hs) as (sg & -> & Hsg).
  destruct (span_digits_split _ _ _ Hi) as (-> & Hip & _).
  apply take_exponent_grammar in He.
  destruct (take_fraction_grammar _ _ _ Hf) as [[-> Hfp] | [-> ->]].
  - replace (sg ++ ip ++ "."%char :: fp ++ l3)
      with (sg ++ (ip ++ "."%char :: fp) ++ l3)
      by (now rewrite <- app_assoc).
    constructor; [exact Hsg | | exact He].
    constructor; [exact Hip | exact Hfp | now rewrite Hd | exact Hsize].
  - constructor; [exact Hsg | | exact He].
    rewrite app_nil_r in Hd.
    constructor; [split; [now rewrite Hd | exact Hip] | exact Hsize].
Qed.

Lemma parse_inf_or_nan_grammar l x :
  PyStr.parse_inf_or_nan l = Some (x, []) -> Grammar.literal l.
Proof.
  unfold PyStr.parse_inf_or_nan.
  destruct (PyStr.take_sign l) as [neg s] eqn:Hs.
  destruct (take_sign_grammar _ _ _ Hs) as (sg & -> & Hsg).
  destruct (PyStr.match_ci _ s) as [s1 |] eqn:H1.
  - destruct (match_ci_split _ _ _ H1) as (c1 & -> & Hc1).
    destruct (PyStr.match_ci _ s1) as [s2 |] eqn:H2.
    + destruct (match_ci_split _ _ _ H2) as (c2 & -> & Hc2).
      intros H; inversion H; subst. rewrite app_nil_r.
      apply Grammar.special; [exact Hsg |].
      unfold Grammar.word. rewrite map_app, Hc1, Hc2. cbn. auto.
    + intros H; inversion H; subst. rewrite app_nil_r.
      apply Grammar.special; [exact Hsg |].
      unfold Grammar.word. rewrite Hc1. cbn. auto.
  - match goal with
    | |- context [PyStr.match_ci ?t s] =>
        destruct (PyStr.match_ci t s) as [s1 |] eqn:H2; [| discriminate]
    end.
    destruct (match_ci_split _ _ _ H2) as (c1 & -> & Hc1).
    intros H; inversion H; subst. rewrite app_nil_r.
    apply Grammar.special; [exact Hsg |].
    unfold Grammar.word. rewrite Hc1. cbn. auto.
Qed.

Lemma ascii_strtod_grammar l x :
  PyStr.ascii_strtod l = Some (x, []) -> Grammar.literal l.
Proof.
  unfold PyStr.ascii_strtod. destruct (PyStr.strtod l) as [[y r] |] eqn:E.
  - intros H; inversion H; subst. now apply (strtod_grammar l x).
  - apply parse_inf_or_nan_grammar.
Qed.

(** *** From the grammar to the parser *)

Lemma take_sign_app sg rest :
  Grammar.sign sg ->
  (forall c t, rest = c :: t -> Spec.is_sign c = false) ->
  exists neg, PyStr.take_sign (sg ++ rest) = (neg, rest).
Proof.
  intros [-> | [-> | ->]] H; cbn.
  - destruct rest as [| c t]; [now exists false |].
    destruct (not_sign c (H c t eq_refl)) as [E1 E2].
    unfold PyStr.take_sign. rewrite E1, E2. now exists false.
  - now exists false.
  - now exists true.
Qed.

Lemma span_digits_app d r :
  forallb PyStr.is_digit d = true ->
  (forall c t, r = c :: t -> PyStr.is_digit c = false) ->
  PyStr.span_digits (d ++ r) = (d, r).
Proof.
  intros Hd Hr. induction d as [| a d IH]; cbn.
  - destruct r as [| c t]; [reflexivity |]. cbn. now rewrite (Hr c t eq_refl).
  - cbn in Hd. apply andb_true_iff in Hd. destruct Hd as [-> Hd]. now rewrite IH.
Qed.

Lemma exponent_head ex c t :
  Grammar.exponent ex -> ex = c :: t ->
  PyStr.is_digit c = false /\ Ascii.eqb c "."%char = false.
Proof.
  intros [| c0 sg d Hc _ _] E; inversion E; subst.
  destruct (lower_e_facts c Hc) as (? & ? & _). auto.
Qed.

Lemma take_exponent_exact ex :
  Grammar.exponent ex -> exists v, PyStr.take_exponent ex = (v, []).
Proof.
  intros [| c sg d Hc Hsg [Hne Hd]]; [now exists 0 |].
  unfold PyStr.take_exponent. rewrite Hc.
  destruct (take_sign_app sg d Hsg) as [eneg Hs].
  { intros a t ->. cbn in Hd. apply andb_true_iff in Hd. destruct Hd as [Hd _].
    apply digit_or_point_not_sign. now rewrite Hd. }
  rewrite Hs, (span_digits_all d Hd).
  destruct d; [contradiction | eexists; reflexivity].
Qed.

Lemma take_fraction_none ex :
  Grammar.exponent ex -> PyStr.take_fraction ex = ([], ex).
Proof.
  intros H. destruct ex as [| c t]; [reflexivity |].
  cbn. destruct (exponent_head _ c t H eq_refl) as [_ ->]. reflexivity.
Qed.

Lemma strtod_of_decimal sg n ex :
  Grammar.sign sg -> Grammar.number n -> Grammar.exponent ex ->
  exists x, PyStr.strtod (sg ++ n ++ ex) = Some (x, []).
Proof.
  intros Hsg Hn Hex.
  destruct (take_exponent_exact ex Hex) as [v Hv].
  assert (Hhead : forall c t, ex = c :: t -> PyStr.is_digit c = false).
  { intros c t E. apply (exponent_head ex c t Hex E). }
  unfold PyStr.strtod.
  destruct Hn as [ip [Hne Hd] Hsize | ip fp Hi Hf Hne Hsize];
    apply too_long_sized in Hsize.
  - destruct (take_sign_app sg (ip ++ ex) Hsg) as [neg Hs].
    { destruct ip as [| a ip]; [contradiction |]. intros c t E; inversion E; subst.
      cbn in Hd. apply andb_true_iff in Hd. destruct Hd as [Hd _].
      apply digit_or_point_not_sign. now rewrite Hd. }
    rewrite Hs, (span_digits_app ip ex Hd Hhead), (take_fraction_none ex Hex).
    rewrite Hsize, app_nil_r. destruct ip; [contradiction |]. rewrite Hv.
    eexists. reflexivity.
  - rewrite <- app_assoc. cbn [app].
    destruct (take_sign_app sg (ip ++ "."%char :: fp ++ ex) Hsg) as [neg Hs].
    { intros c t E. apply digit_or_point_not_sign.
      destruct ip as [| a ip]; cbn in E; inversion E; subst; [reflexivity |].
      cbn in Hi. apply andb_true_iff in Hi. destruct Hi as [-> _]. reflexivity. }
    rewrite Hs, (span_digits_app ip _ Hi).
    2:{ intros c t E; inversion E; reflexivity. }
    cbn [PyStr.take_fraction]. rewrite (Ascii.eqb_refl "."%char).
    rewrite (span_digits_app fp ex Hf Hhead), Hsize.
    destruct (ip ++ fp); [contradiction |]. rewrite Hv.
    eexists. reflexivity.
Qed.

Lemma strtod_of_word sg c w :
  Ascii.eqb (PyStr.to_lower c) "i"%char || Ascii.eqb (PyStr.to_lower c) "n"%char = true ->
  Grammar.sign sg ->
  PyStr.strtod (sg ++ c :: w) = None /\
  exists neg, PyStr.take_sign (sg ++ c :: w) = (neg, c :: w).
Proof.
  intros Hc Hsg. destruct (lower_i_n_facts c Hc) as (Hd & Hp & Hs).
  destruct (take_sign_app sg (c :: w) Hsg) as [neg Hn].
  { intros a t E; inversion E; subst; exact Hs. }
  split; [| eauto]. unfold PyStr.strtod. rewrite Hn. cbn. rewrite Hd. cbn.
  now rewrite Hp.
Qed.

Lemma inf_nan_of_word sg w :
  Grammar.sign sg -> Grammar.word w ->
  PyStr.strtod (sg ++ w) = None /\
  exists x, PyStr.parse_inf_or_nan (sg ++ w) = Some (x, []).
Proof.
  intros Hsg Hw. unfold Grammar.word in Hw. cbn in Hw.
  destruct Hw as [H | [H | [H | []]]]; symmetry in H.
  - destruct w as [| c1 [| c2 [| c3 [| ? ?]]]]; try discriminate.
    cbn in H. injection H as E1 E2 E3.
    destruct (strtod_of_word sg c1 [c2; c3]) as [Hn [neg Hs]];
      [now rewrite E1 | exact Hsg |].
    split; [exact Hn |]. unfold PyStr.parse_inf_or_nan. rewrite Hs. cbn.
    rewrite E1, E2, E3. cbn. eexists. reflexivity.
  - destruct w as [| c1 [| c2 [| c3 [| c4 [| c5 [| c6 [| c7 [| c8 [| ? ?]]]]]]]]];
      try discriminate.
    cbn in H. injection H as E1 E2 E3 E4 E5 E6 E7 E8.
    destruct (strtod_of_word sg c1 [c2; c3; c4; c5; c6; c7; c8]) as [Hn [neg Hs]];
      [now rewrite E1 | exact Hsg |].
    split; [exact Hn |]. unfold PyStr.parse_inf_or_nan. rewrite Hs. cbn.
    rewrite E1, E2, E3. cbn. rewrite E4, E5, E6, E7, E8. cbn.
    eexists. reflexivity.
  - destruct w as [| c1 [| c2 [| c3 [| ? ?]]]]; try discriminate.
    cbn in H. injection H as E1 E2 E3.
    destruct (strtod_of_word sg c1 [c2; c3]) as [Hn [neg Hs]];
      [now rewrite E1 | exact Hsg |].
    split; [exact Hn |]. unfold PyStr.parse_inf_or_nan. rewrite Hs. cbn.
    rewrite E1, E2, E3. cbn. eexists. reflexivity.
Qed.

Lemma ascii_strtod_of_literal core :
  Grammar.literal core -> exists x, PyStr.ascii_strtod core = Some (x, []).
Proof.
  intros [sg n ex Hsg Hn Hex | sg w Hsg Hw]; unfold PyStr.ascii_strtod.
  - destruct (strtod_of_decimal sg n ex Hsg Hn Hex) as [x ->]. now exists x.
  - destruct (inf_nan_of_word sg w Hsg Hw) as [-> [x ->]]. now exists x.
Qed.

(** *** The texts that [float] accepts are the texts of the grammar *)

Lemma float_from_string_inner_grammar l :
  (exists x, PyStr.float_from_string_inner l = Some x) <->
  exists ws1 core ws2,
    l = ws1 ++ core ++ ws2 /\ Grammar.white ws1 /\ Grammar.white ws2 /\
    Grammar.literal core.
Proof.
  unfold PyStr.float_from_string_inner. split.
  - intros [x H].
    destruct (strip_split l) as (ws1 & ws2 & Hl & H1 & H2).
    destruct (PyStr.rstrip (PyStr.lstrip l)) as [| a core] eqn:Hc; [discriminate |].
    destruct (PyStr.ascii_strtod (a :: core)) as [[y r] |] eqn:Hn; [| discriminate].
    destruct r; [| discriminate].
    exists ws1, (a :: core), ws2. repeat split; try assumption.
    now apply (ascii_strtod_grammar _ y).
  - intros (ws1 & core & ws2 & -> & H1 & H2 & Hlit).
    destruct (literal_solid core Hlit) as [Hs Hne].
    rewrite (strip_around ws1 core ws2 H1 H2 Hs Hne).
    destruct (ascii_strtod_of_literal core Hlit) as [x Hx].
    destruct core; [contradiction |]. rewrite Hx. now exists x.
Qed.

Lemma float_from_string_grammar s :
  (exists x, PyStr.float_from_string s = Some x) <-> Grammar.float_text s.
Proof.
  unfold PyStr.float_from_string, Grammar.float_text. split.
  - intros [x H].
    destruct (PyStr.strip_underscores _ _) as [l |] eqn:Hu; [| discriminate].
    apply strip_underscores_grammar in Hu. destruct Hu as [Hu ->].
    split; [exact Hu |]. apply float_from_string_inner_grammar. now exists x.
  - intros [Hu H].
    assert (E : PyStr.strip_underscores "000"%char (PyStr.normalise s)
                = Some (Grammar.without_underscores (PyStr.normalise s)))
      by (now apply strip_underscores_grammar).
    rewrite E. now apply float_from_string_inner_grammar.
Qed.

(** *** The model of [float] on sample texts *)

Example float_accepts_samples :
  map Spec.convertible
    [VStr "45.123"; VStr "-122.5"; VStr " 1 "; VStr ".5"; VStr "1."; VStr "+.5e3";
     VStr "1_000.000_1"; VStr "1e1_0"; VStr "INF"; VStr "-iNfinity"; VStr "+NaN"] =
  [true; true; true; true; true; true; true; true; true; true; true].
Proof. vm_compute; reflexivity. Qed.

Example float_refuses_samples :
  map Spec.convertible
    [VStr EmptyString; VStr "  "; VStr "abc"; VStr "."; VStr "1.2.3"; VStr "1..2";
     VStr "--1"; VStr "1e"; VStr "1e+"; VStr "1__0"; VStr "_1"; VStr "1_"; VStr "1_.5";
     VStr "0x10"; VStr "infi"; VStr "nan1"; VStr "1 2"; VStr "1?"; VStr "12abc"] =
  [false; false; false; false; false; false; false; false; false; false; false;
   false; false; false; false; false; false; false; false].
Proof. vm_compute; reflexivity. Qed.

Example float_values_samples :
  Py.float (VStr "0.1") = Ok (S754_finite false 7205759403792794 (-56)) /\
  Py.float (VStr "45.123") = Ok (S754_finite false 6350497687057465 (-47)) /\
  Py.float (VStr "-122.5") = Ok (S754_finite true 8620171161763840 (-46)) /\
  Py.float (VStr "90.000000000000001") = Ok (Float.of_Z 90) /\
  Py.float (VStr "1e400") = Ok (S754_infinity false) /\
  Py.float (VStr "-0") = Ok (S754_zero true).
Proof. repeat split; vm_compute; reflexivity. Qed.

(** Digits and white space outside ASCII: Arabic-Indic and full-width
    digits, an em space. *)
Example float_unicode_samples :
  Py.float (VStr "١٢") = Ok (Float.of_Z 12) /\
  Py.float (VStr "１２.５") = Ok (Float.of_decimal false 125 (-1)) /\
  Py.float (VStr "1 ") = Ok (Float.of_Z 1) /\
  Py.float (VStr "²") = Raise ValueError /\
  Py.float (VStr "−1") = Raise ValueError.
Proof. repeat split; vm_compute; reflexivity. Qed.

(** C5, as stated, fails: the parse step is Python's [float], which also
    accepts an exponent, underscores between digits, and the spellings of
    NaN and infinity; none of these is a standard decimal form, and ["nan"]
    is not numeric text. *)
Lemma float_accepts_more_than_decimal_forms :
  Spec.simple_decimal "1e5" = false /\
  Py.float (VStr "1e5") = Ok (Float.of_Z 100000) /\
  Spec.simple_decimal "nan" = false /\
  Py.float (VStr "nan") = Ok S754_nan /\
  Spec.simple_decimal "1_0" = false /\
  Py.float (VStr "1_0") = Ok (Float.of_Z 10) /\
  Spec.simple_decimal "-Infinity" = false /\
  Py.float (VStr "-Infinity") = Ok (S754_infinity true).
Proof. repeat split; vm_compute; reflexivity. Qed.

(** C5, amended: for every textual coordinate value, the parse step accepts
    the text exactly when, with the white space around it removed, it is an
    optional sign followed by either a decimal number (digits with at most
    one decimal point and at least one digit, at most 10^9 digits from the
    first that is not zero and at most 10^9 after the point, then
    optionally an exponent: [e] or [E], an optional sign and digits; single
    underscores may stand between digits) or one of the words [inf],
    [infinity] and [nan] in any letter case, where a Unicode decimal digit
    counts as its ASCII digit and a Unicode white-space character outside
    ASCII as a space; every other text is refused with [ValueError].  So
    every standard decimal form of at most 10^9 characters is accepted, and
    every empty or blank text and every text with more than one decimal
    point is refused. *)
Theorem float_text_grammar s :
  ((exists x, Py.float (VStr s) = Ok x) <-> Grammar.float_text s) /\
  (Py.float (VStr s) = Raise ValueError <-> ~ Grammar.float_text s) /\
  (Spec.simple_decimal s = true ->
   Z.of_nat (String.length s) <= PyStr.max_digits -> Grammar.float_text s) /\
  ((2 <= Grammar.points s)%nat -> ~ Grammar.float_text s) /\
  (Grammar.blank s = true -> ~ Grammar.float_text s).
Proof.
  pose proof (float_from_string_grammar s) as G. cbn [Py.float].
  assert (Hnone : PyStr.float_from_string s = None -> ~ Grammar.float_text s).
  { intros E Ht. apply G in Ht. destruct Ht as [x Hx]. congruence. }
  split; [split |]; [| | split; [split |]; [| | split; [| split]]].
  - intros [x H]. apply G.
    destruct (PyStr.float_from_string s) as [y |]; [now exists y | discriminate].
  - intros Ht. apply G in Ht. destruct Ht as [x ->]. now exists x.
  - intros H. apply Hnone.
    destruct (PyStr.float_from_string s); [discriminate | reflexivity].
  - intros Hn. destruct (PyStr.float_from_string s) as [x |] eqn:E; [| reflexivity].
    exfalso. apply Hn, G. now exists x.
  - intros H Hsize. apply G. exact (simple_decimal_accepted s H Hsize).
  - intros H. apply Hnone. exact (two_points_refused s H).
  - intros H. apply Hnone. exact (blank_refused s H).
Qed.

Lemma float_text_grammar_witness :
  Grammar.float_text " -122.5 " /\
  Grammar.float_text "1e5" /\
  ~ Grammar.float_text "12abc" /\
  ~ Grammar.float_text "1.2.3" /\
  ~ Grammar.float_text "  ".
Proof.
  split; [| split; [| split; [| split]]].
  - apply (proj1 (proj2 (proj2 (float_text_grammar " -122.5 ")))).
    + vm_compute; reflexivity.
    + vm_compute; discriminate.
  - apply (proj1 (float_text_grammar "1e5")).
    eexists. vm_compute; reflexivity.
  - apply (proj1 (proj2 (float_text_grammar "12abc"))).
    vm_compute; reflexivity.
  - apply (proj1 (proj2 (proj2 (proj2 (float_text_grammar "1.2.3"))))).
    vm_compute; lia.
  - apply (proj2 (proj2 (proj2 (proj2 (float_text_grammar "  "))))).
    vm_compute; reflexivity.
Defined.

(* ================================================================== *)
(** ** One record: the [try] block                                     *)
(* ================================================================== *)


Section OneRecord.

Variable p : GPSPath.

Lemma convert_value_raises v e :
  Spec.convert_value v = Raise e -> e = ValueError /\ isinstance_str v = true.
Proof.
  destruct v as [| z | f | s]; cbn; try discriminate.
  destruct (PyStr.float_from_string s); cbn; intros H; inversion H; auto.
Qed.

Lemma convert_value_not_str v v' :
  Spec.convert_value v = Ok v' -> isinstance_str v' = false.
Proof.
  destruct v as [| z | f | s]; cbn; try (intros H; inversion H; reflexivity).
  destruct (PyStr.float_from_string s); cbn; intros H; inversion H; reflexivity.
Qed.

Lemma convert_value_fixed v :
  isinstance_str v = false -> Spec.convert_value v = Ok v.
Proof. unfold Spec.convert_value. now intros ->. Qed.

Lemma convertible_iff v :
  Spec.convertible v = true <-> exists v', Spec.convert_value v = Ok v'.
Proof.
  destruct v as [| z | f | s]; cbn; try (split; eauto; fail).
  destruct (PyStr.float_from_string s); cbn; split; eauto.
  - intros H; discriminate.
  - intros [v' H]; discriminate.
Qed.

Lemma convert_point_ok la lo :
  Spec.convert_value (latitude p) = Ok la ->
  Spec.convert_value (longitude p) = Ok lo ->
  convert_point p = (with_coordinates p la lo, Ok tt).
Proof.
  unfold convert_point, convert_attr, Spec.convert_value, with_coordinates,
    set_latitude, set_longitude.
  destruct p as [i sc [| z1 | f1 | s1] [| z2 | f2 | s2] ac ts]; cbn;
    repeat match goal with
           | |- context [PyStr.float_from_string ?s] =>
               destruct (PyStr.float_from_string s); cbn
           end;
    intros; congruence.
Qed.

(** A latitude that [float] refuses: nothing is assigned. *)
Lemma convert_point_bad_latitude e :
  Spec.convert_value (latitude p) = Raise e ->
  convert_point p = (p, Raise e).
Proof.
  unfold convert_point, convert_attr, Spec.convert_value, with_coordinates,
    set_latitude, set_longitude.
  destruct p as [i sc [| z1 | f1 | s1] [| z2 | f2 | s2] ac ts]; cbn;
    repeat match goal with
           | |- context [PyStr.float_from_string ?s] =>
               destruct (PyStr.float_from_string s); cbn
           end;
    intros; congruence.
Qed.

(** A longitude that [float] refuses: the latitude has been assigned
    already, in memory. *)
Lemma convert_point_bad_longitude la e :
  Spec.convert_value (latitude p) = Ok la ->
  Spec.convert_value (longitude p) = Raise e ->
  convert_point p = (with_coordinates p la (longitude p), Raise e).
Proof.
  unfold convert_point, convert_attr, Spec.convert_value, with_coordinates,
    set_latitude, set_longitude.
  destruct p as [i sc [| z1 | f1 | s1] [| z2 | f2 | s2] ac ts]; cbn;
    repeat match goal with
           | |- context [PyStr.float_from_string ?s] =>
               destruct (PyStr.float_from_string s); cbn
           end;
    intros; congruence.
Qed.

(** The three ways the block can end. *)
Lemma convert_point_cases :
  (exists la lo, Spec.convert_value (latitude p) = Ok la /\
                 Spec.convert_value (longitude p) = Ok lo /\
                 convert_point p = (with_coordinates p la lo, Ok tt))
  \/ (Spec.convert_value (latitude p) = Raise ValueError /\
      convert_point p = (p, Raise ValueError))
  \/ (exists la, Spec.convert_value (latitude p) = Ok la /\
                 Spec.convert_value (longitude p) = Raise ValueError /\
                 convert_point p = (with_coordinates p la (longitude p), Raise ValueError)).
Proof.
  destruct (Spec.convert_value (latitude p)) as [la | e] eqn:Hla.
  - destruct (Spec.convert_value (longitude p)) as [lo | e] eqn:Hlo.
    + left. exists la, lo. auto using convert_point_ok.
    + right; right. exists la.
      destruct (convert_value_raises _ _ Hlo) as [-> _].
      auto using convert_point_bad_longitude.
  - right; left.
    destruct (convert_value_raises _ _ Hla) as [-> _].
    auto using convert_point_bad_latitude.
Qed.

Lemma convert_point_id : id (fst (convert_point p)) = id p.
Proof.
  destruct convert_point_cases as [(la & lo & _ & _ & ->) | [[_ ->] | (la & _ & _ & ->)]];
    reflexivity.
Qed.

Lemma accepted_iff_ok : Spec.accepted p = true <-> snd (convert_point p) = Ok tt.
Proof.
  unfold Spec.accepted. rewrite andb_true_iff, !convertible_iff.
  destruct convert_point_cases
    as [(la & lo & Hla & Hlo & ->) | [[Hla ->] | (la & Hla & Hlo & ->)]]; cbn.
  - split; eauto.
  - split; [intros [[v H] _]; congruence | discriminate].
  - split; [intros [_ [v H]]; congruence | discriminate].
Qed.

Lemma refused_iff_raise :
  Spec.accepted p = false <-> snd (convert_point p) = Raise ValueError.
Proof.
  destruct (Spec.accepted p) eqn:Hv.
  - apply accepted_iff_ok in Hv. rewrite Hv. split; discriminate.
  - split; [intros _ | reflexivity].
    destruct convert_point_cases
      as [(la & lo & Hla & Hlo & H) | [[Hla ->] | (la & Hla & Hlo & ->)]];
      try reflexivity.
    assert (Spec.accepted p = true) by (apply accepted_iff_ok; now rewrite H).
    congruence.
Qed.

(** What each outcome contributes to the two outputs. *)
Lemma saved_as_accepted :
  Spec.accepted p = true -> saved_as p = [fst (convert_point p)] /\ reported_as p = [].
Proof.
  intros H. apply accepted_iff_ok in H. unfold saved_as, reported_as.
  destruct (convert_point p) as [p' r]; cbn in *; subst; auto.
Qed.

Lemma saved_as_refused :
  Spec.accepted p = false -> saved_as p = [] /\ reported_as p = [id p].
Proof.
  intros H. apply refused_iff_raise in H. unfold saved_as, reported_as.
  pose proof convert_point_id as Hid.
  destruct (convert_point p) as [p' r]; cbn in *; subst.
  split; [reflexivity | now rewrite Hid].
Qed.

End OneRecord.

(* ================================================================== *)
(** ** A batch: the loop                                               *)
(* ================================================================== *)

Lemma normalized_app l1 l2 : normalized (l1 ++ l2) = normalized l1 ++ normalized l2.
Proof. apply flat_map_app. Qed.

Lemma failed_app l1 l2 : failed (l1 ++ l2) = failed l1 ++ failed l2.
Proof. apply flat_map_app. Qed.

Lemma normalized_cons p l : normalized (p :: l) = saved_as p ++ normalized l.
Proof. reflexivity. Qed.

Lemma failed_cons p l : failed (p :: l) = reported_as p ++ failed l.
Proof. reflexivity. Qed.

(** The saved instances are the valid records, converted, in input order. *)
Lemma normalized_filter records :
  normalized records = map (fun p => fst (convert_point p)) (filter Spec.accepted records).
Proof.
  induction records as [| p l IH]; [reflexivity |].
  rewrite normalized_cons, IH. cbn [filter].
  destruct (Spec.accepted p) eqn:Hv.
  - destruct (saved_as_accepted p Hv) as [-> _]. reflexivity.
  - destruct (saved_as_refused p Hv) as [-> _]. reflexivity.
Qed.


(** Where a saved instance comes from. *)
Lemma in_normalized records p' :
  In p' (normalized records) <->
  exists p, In p records /\ Spec.accepted p = true /\ p' = fst (convert_point p).
Proof.
  rewrite normalized_filter, in_map_iff. split.
  - intros (p & <- & Hin). apply filter_In in Hin. exists p. tauto.
  - intros (p & Hin & Hv & ->). exists p. split; [reflexivity |].
    apply filter_In. tauto.
Qed.

(** *** The loop over a store *)

(** An iteration whose conversion raises prints the warning and leaves the
    table alone, whatever the store. *)
Lemma loop_body_on_refused save p w e :
  snd (convert_point p) = Raise e ->
  loop_body_on save p w = (mkWorld (db w) (stdout w ++ [warning (id p)]), None).
Proof.
  unfold loop_body_on.
  destruct (convert_point_cases p)
    as [(la & lo & _ & _ & ->) | [[_ ->] | (la & _ & _ & ->)]]; cbn;
    [discriminate | reflexivity | reflexivity].
Qed.

(** An iteration whose conversion returns hands the instance to [save()]. *)
Lemma loop_body_on_accepted save p w :
  Spec.accepted p = true ->
  loop_body_on save p w =
  match save (fst (convert_point p)) (db w) with
  | (t, None) => (mkWorld t (stdout w), None)
  | (t, Some e) =>
      if handled e then (mkWorld t (stdout w ++ [warning (id p)]), None)
      else (mkWorld t (stdout w), Some e)
  end.
Proof.
  intros H. apply accepted_iff_ok in H. unfold loop_body_on.
  pose proof (convert_point_id p) as Hid.
  destruct (convert_point p) as [p' r]. cbn in *. subst r.
  destruct (save p' (db w)) as [t [e |]]; now rewrite ?Hid.
Qed.

Lemma for_each_on_app save l1 l2 w :
  for_each_on save (l1 ++ l2) w =
  match for_each_on save l1 w with
  | (w1, None) => for_each_on save l2 w1
  | (w1, Some e) => (w1, Some e)
  end.
Proof.
  revert w. induction l1 as [| p l1 IH]; intros w; [reflexivity |].
  cbn. destruct (loop_body_on save p w) as [w' [e |]]; [reflexivity | apply IH].
Qed.

(** When no [save()] of the run raises, the run returns, and its effects are
    the saves of [normalized], in order, and the warnings of [failed]. *)
Lemma for_each_on_succeeding save ps w :
  (forall q t, In q (normalized ps) -> snd (save q t) = None) ->
  for_each_on save ps w =
  (mkWorld (fold_left (fun t q => fst (save q t)) (normalized ps) (db w))
           (stdout w ++ map warning (failed ps)), None).
Proof.
  revert w. induction ps as [| p l IH]; intros w H.
  - cbn. rewrite app_nil_r. now destruct w.
  - cbn [for_each_on]. rewrite normalized_cons, failed_cons in *.
    destruct (Spec.accepted p) eqn:Hp.
    + destruct (saved_as_accepted p Hp) as [Hs Hr]. rewrite Hs, Hr in *.
      rewrite (loop_body_on_accepted save p w Hp).
      pose proof (H (fst (convert_point p)) (db w) (or_introl eq_refl)) as Hok.
      destruct (save (fst (convert_point p)) (db w)) as [t r] eqn:E.
      cbn in Hok. subst r. rewrite IH by (intros; apply H; now right).
      cbn. now rewrite E.
    + destruct (saved_as_refused p Hp) as [Hs Hr]. rewrite Hs, Hr in *.
      apply refused_iff_raise in Hp.
      rewrite (loop_body_on_refused save p w _ Hp), IH by exact H.
      cbn. now rewrite <- app_assoc.
Qed.

(** Over a table that refuses nothing, the run returns. *)
Lemma for_each_outputs ps w :
  for_each ps w =
  Ok (mkWorld (fold_left (fun t q => save q t) (normalized ps) (db w))
              (stdout w ++ map warning (failed ps))).
Proof.
  unfold for_each. rewrite for_each_on_succeeding by reflexivity. reflexivity.
Qed.

(** Records without text are saved as they are. *)
Lemma normalized_no_text records :
  (forall p, In p records ->
     isinstance_str (latitude p) = false /\ isinstance_str (longitude p) = false) ->
  normalized records = records /\ failed records = [].
Proof.
  induction records as [| p l IH]; intros H; [split; reflexivity |].
  destruct (H p (or_introl eq_refl)) as [Hla Hlo].
  destruct IH as [IHn IHf]; [intros q Hq; apply H; now right |].
  rewrite normalized_cons, failed_cons, IHn, IHf.
  unfold saved_as, reported_as.
  rewrite (convert_point_ok p _ _ (convert_value_fixed _ Hla) (convert_value_fixed _ Hlo)).
  unfold with_coordinates. destruct p; split; reflexivity.
Qed.

(** No saved instance holds text. *)
Lemma normalized_has_no_text records p' :
  In p' (normalized records) ->
  isinstance_str (latitude p') = false /\ isinstance_str (longitude p') = false.
Proof.
  intros Hin. apply in_normalized in Hin. destruct Hin as (p & _ & Hv & ->).
  apply accepted_iff_ok in Hv.
  destruct (convert_point_cases p)
    as [(la & lo & Hla & Hlo & H) | [[_ H] | (la & _ & _ & H)]];
    rewrite H in Hv |- *; cbn in *; try discriminate.
  split; eapply convert_value_not_str; eassumption.
Qed.

(* ================================================================== *)
(** ** The table under [save]                                          *)
(* ================================================================== *)

Lemma get_update_other i q t :
  id q <> i -> get i (update q t) = get i t.
Proof.
  intros Hne. unfold get, update, has_id.
  induction t as [| r t IH]; [reflexivity |]. cbn.
  destruct (Z.eqb_spec (id r) (id q)) as [E | E]; cbn.
  - destruct (Z.eqb_spec (id q) i); [contradiction |].
    destruct (Z.eqb_spec (id r) i); [congruence | exact IH].
  - destruct (Z.eqb_spec (id r) i); [reflexivity | exact IH].
Qed.

Lemma get_app_other i q t :
  id q <> i -> get i (t ++ [q]) = get i t.
Proof.
  intros Hne. unfold get.
  induction t as [| r t IH]; cbn.
  - unfold has_id. destruct (id q =? i) eqn:Hq; [| reflexivity].
    apply Z.eqb_eq in Hq. contradiction.
  - destruct (has_id i r); [reflexivity | exact IH].
Qed.

(** Saving one instance leaves the rows of the other keys alone. *)
Lemma get_save_other i q t :
  id q <> i -> get i (save q t) = get i t.
Proof.
  intros Hne. unfold save.
  destruct (existsb (has_id (id q)) t); auto using get_update_other, get_app_other.
Qed.

Lemma get_saves_other i qs t :
  (forall q, In q qs -> id q <> i) ->
  get i (fold_left (fun t q => save q t) qs t) = get i t.
Proof.
  revert t. induction qs as [| q qs IH]; intros t H; [reflexivity |].
  cbn [fold_left]. rewrite IH by (intros; apply H; now right).
  apply get_save_other, H. now left.
Qed.

Lemma get_in_unique t p :
  unique_ids t -> In p t -> get (id p) t = Some p.
Proof.
  unfold unique_ids, get. induction t as [| r t IH]; intros Hu Hin; [destruct Hin |].
  cbn in Hu. apply NoDup_cons_iff in Hu. destruct Hu as [Hr Hu].
  cbn. unfold has_id at 1. destruct Hin as [-> | Hin].
  - now rewrite Z.eqb_refl.
  - destruct (id r =? id p) eqn:E; [| auto].
    apply Z.eqb_eq in E. exfalso. apply Hr. rewrite E. now apply in_map.
Qed.

Lemma unique_ids_inj t p q :
  unique_ids t -> In p t -> In q t -> id p = id q -> p = q.
Proof.
  intros Hu Hp Hq E.
  pose proof (get_in_unique t p Hu Hp) as H1.
  pose proof (get_in_unique t q Hu Hq) as H2.
  rewrite E in H1. congruence.
Qed.

(* ================================================================== *)
(** ** Range: the code validates none                                  *)
(* ================================================================== *)






(* ================================================================== *)
(** ** Failures are reported and skipped                               *)
(* ================================================================== *)

(** C2, as stated, fails: the longitude ["181"] is outside [[-180, 180]], so
    range validation fails on the record, yet the record goes to the
    normalized output and, over a table that refuses nothing, the migration
    saves it and prints nothing. *)
Lemma longitude_181_is_not_reported :
  Spec.valid_longitude (VFloat (Float.of_Z 181)) = false /\
  normalize [Sample.point 2 (VFloat (Float.of_Z 10)) (VStr "181")] =
    ([Sample.point 2 (VFloat (Float.of_Z 10)) (VFloat (Float.of_Z 181))], []) /\
  convert_gps_strings_to_floats
    (mkWorld [Sample.point 2 (VFloat (Float.of_Z 10)) (VStr "181")] []) =
  Ok (mkWorld [Sample.point 2 (VFloat (Float.of_Z 10)) (VFloat (Float.of_Z 181))] []).
Proof. repeat split; vm_compute; reflexivity. Qed.

(** C2, amended: for every record with a coordinate text that [float]
    refuses, the iteration for that record prints one warning naming the
    record's id (there is no reason tag, and a range is never a cause of
    failure), calls no [save()] and raises nothing, and the loop goes on
    with the next record, whatever the database behind [save()] does; the
    record is left out of the normalized output and its id is in the failed
    output. *)
Theorem parse_failure_is_reported_and_skipped (save : store) before p after e :
  Spec.convert_value (latitude p) = Raise e \/
  Spec.convert_value (longitude p) = Raise e ->
  (forall w, loop_body_on save p w =
             (mkWorld (db w) (stdout w ++ [warning (id p)]), None)) /\
  (forall w, for_each_on save (p :: after) w =
             for_each_on save after (mkWorld (db w) (stdout w ++ [warning (id p)]))) /\
  failed (before ++ p :: after) = failed before ++ id p :: failed after /\
  normalized (before ++ p :: after) = normalized before ++ normalized after.
Proof.
  intros Hbad.
  assert (Hinv : Spec.accepted p = false).
  { destruct (Spec.accepted p) eqn:Hv; [| reflexivity].
    unfold Spec.accepted in Hv. apply andb_true_iff in Hv. destruct Hv as [H1 H2].
    apply convertible_iff in H1, H2. destruct H1 as [v1 H1], H2 as [v2 H2].
    destruct Hbad; congruence. }
  destruct (saved_as_refused p Hinv) as [Hs Hr].
  apply refused_iff_raise in Hinv.
  assert (Hbody : forall w, loop_body_on save p w =
                    (mkWorld (db w) (stdout w ++ [warning (id p)]), None))
    by (intros w; exact (loop_body_on_refused save p w _ Hinv)).
  split; [exact Hbody |]. split.
  - intros w. cbn [for_each_on]. now rewrite Hbody.
  - rewrite failed_app, normalized_app, failed_cons, normalized_cons, Hs, Hr.
    split; reflexivity.
Qed.

Lemma parse_failure_is_reported_and_skipped_witness :
  (forall w, loop_body_on not_null (Sample.point 2 (VStr "12.5") (VStr "abc")) w =
             (mkWorld (db w) (stdout w ++ [warning 2]), None)) /\
  (forall w, for_each_on not_null
               [Sample.point 2 (VStr "12.5") (VStr "abc");
                Sample.point 3 (Sample.f false 10 0) (Sample.f true 20 0)] w =
             for_each_on not_null
               [Sample.point 3 (Sample.f false 10 0) (Sample.f true 20 0)]
               (mkWorld (db w) (stdout w ++ [warning 2]))) /\
  failed ([Sample.point 1 (VStr "45.123") (VStr "-122.5")] ++
          [Sample.point 2 (VStr "12.5") (VStr "abc");
           Sample.point 3 (Sample.f false 10 0) (Sample.f true 20 0)]) =
    failed [Sample.point 1 (VStr "45.123") (VStr "-122.5")] ++
    2 :: failed [Sample.point 3 (Sample.f false 10 0) (Sample.f true 20 0)] /\
  normalized ([Sample.point 1 (VStr "45.123") (VStr "-122.5")] ++
              [Sample.point 2 (VStr "12.5") (VStr "abc");
               Sample.point 3 (Sample.f false 10 0) (Sample.f true 20 0)]) =
    normalized [Sample.point 1 (VStr "45.123") (VStr "-122.5")] ++
    normalized [Sample.point 3 (Sample.f false 10 0) (Sample.f true 20 0)].
Proof.
  apply (parse_failure_is_reported_and_skipped not_null
           [Sample.point 1 (VStr "45.123") (VStr "-122.5")]
           (Sample.point 2 (VStr "12.5") (VStr "abc"))
           [Sample.point 3 (Sample.f false 10 0) (Sample.f true 20 0)]
           ValueError).
  right; vm_compute; reflexivity.
Defined.

(* ================================================================== *)
(** ** What the normalized output holds                                *)
(* ================================================================== *)

(** C3, as stated, fails: ["nan"] and ["-inf"] are texts that [float]
    accepts, and the record is saved with a NaN latitude and an infinite
    longitude. *)
Lemma nan_and_infinity_are_saved :
  normalized [Sample.point 3 (VStr "nan") (VStr "-inf")] =
    [Sample.point 3 (VFloat S754_nan) (VFloat (S754_infinity true))] /\
  Spec.finite_float (VFloat S754_nan) = false /\
  Spec.valid_latitude (VFloat S754_nan) = false /\
  Spec.finite_float (VFloat (S754_infinity true)) = false /\
  Spec.valid_longitude (VFloat (S754_infinity true)) = false.
Proof. repeat split; vm_compute; reflexivity. Qed.

(** C3, amended: every record in the normalized output has a latitude and a
    longitude that are not text: each is the float that [float] returned for
    the input's text (which can be a NaN, an infinity or out of range), or
    the input's own value when that was not text. *)
Theorem normalized_holds_no_text records p' :
  In p' (normalized records) ->
  isinstance_str (latitude p') = false /\
  isinstance_str (longitude p') = false /\
  exists p, In p records /\ id p' = id p /\
            Spec.convert_value (latitude p) = Ok (latitude p') /\
            Spec.convert_value (longitude p) = Ok (longitude p').
Proof.
  intros Hin.
  destruct (normalized_has_no_text records p' Hin) as [H1 H2].
  split; [exact H1 | split; [exact H2 |]].
  apply in_normalized in Hin. destruct Hin as (p & Hp & Hv & ->).
  exists p. split; [exact Hp |].
  apply accepted_iff_ok in Hv.
  destruct (convert_point_cases p)
    as [(la & lo & Hla & Hlo & H) | [[_ H] | (la & _ & _ & H)]];
    rewrite H in Hv |- *; cbn in *; try discriminate.
  auto.
Qed.

Lemma normalized_holds_no_text_witness :
  In (Sample.point 3 (VFloat S754_nan) (VFloat (S754_infinity true)))
     (normalized [Sample.point 3 (VStr "nan") (VStr "-inf")]) /\
  isinstance_str (VFloat S754_nan) = false /\
  isinstance_str (VFloat (S754_infinity true)) = false /\
  exists p, In p [Sample.point 3 (VStr "nan") (VStr "-inf")] /\ 3 = id p /\
            Spec.convert_value (latitude p) = Ok (VFloat S754_nan) /\
            Spec.convert_value (longitude p) = Ok (VFloat (S754_infinity true)).
Proof.
  split; [left; vm_compute; reflexivity |].
  apply (normalized_holds_no_text [Sample.point 3 (VStr "nan") (VStr "-inf")]
           (Sample.point 3 (VFloat S754_nan) (VFloat (S754_infinity true)))).
  left; vm_compute; reflexivity.
Defined.

(* ================================================================== *)
(** ** Effects                                                         *)
(* ================================================================== *)

(** C4, as stated, fails: on the sample batch, over a table that refuses
    nothing, the migration itself rewrites the table and prints two lines;
    and the instance of record 2 has its latitude assigned in place before
    its longitude is refused. *)
Lemma migration_saves_and_prints :
  exists w',
    convert_gps_strings_to_floats (mkWorld Sample.batch []) = Ok w' /\
    db w' <> Sample.batch /\
    stdout w' = [warning 2; warning 4] /\
    fst (convert_point (Sample.point 2 (VStr "12.5") (VStr "abc"))) =
      Sample.point 2 (Sample.f false 125 (-1)) (VStr "abc").
Proof.
  eexists. split; [vm_compute; reflexivity |].
  split; [intros H; vm_compute in H; discriminate |].
  split; vm_compute; reflexivity.
Qed.

(** C4, amended: the migration is a synchronous single pass, but it is not
    free of effects and does not leave persistence to its caller.  It
    assigns to the fetched instance in place: after the [try] block the
    instance holds every coordinate converted before the block ended.  It
    calls [save()] itself on each converted instance, in input order, and
    prints one warning for each record whose conversion fails: when none of
    those calls raises, the table it leaves is the result of those saves, in
    order, and its output is extended by exactly those warnings. *)
Theorem migration_effects (save : store) w p :
  (forall q t, In q (normalized (db w)) -> snd (save q t) = None) ->
  convert_gps_strings_to_floats_on save w =
    (mkWorld (fold_left (fun t q => fst (save q t)) (normalized (db w)) (db w))
             (stdout w ++ map warning (failed (db w))), None) /\
  fst (convert_point p) =
    match Spec.convert_value (latitude p), Spec.convert_value (longitude p) with
    | Ok la, Ok lo => with_coordinates p la lo
    | Ok la, Raise _ => with_coordinates p la (longitude p)
    | Raise _, _ => p
    end.
Proof.
  intros H. split; [now apply for_each_on_succeeding |].
  destruct (convert_point_cases p)
    as [(la & lo & Hla & Hlo & ->) | [[Hla ->] | (la & Hla & Hlo & ->)]];
    rewrite Hla, ?Hlo; reflexivity.
Qed.

Lemma migration_effects_witness :
  convert_gps_strings_to_floats_on not_null (mkWorld Sample.batch []) =
    (mkWorld (fold_left (fun t q => fst (not_null q t)) (normalized Sample.batch)
                Sample.batch)
             ([] ++ map warning (failed Sample.batch)), None) /\
  fst (convert_point (Sample.point 2 (VStr "12.5") (VStr "abc"))) =
    match Spec.convert_value (VStr "12.5"), Spec.convert_value (VStr "abc") with
    | Ok la, Ok lo => with_coordinates (Sample.point 2 (VStr "12.5") (VStr "abc")) la lo
    | Ok la, Raise _ =>
        with_coordinates (Sample.point 2 (VStr "12.5") (VStr "abc")) la (VStr "abc")
    | Raise _, _ => Sample.point 2 (VStr "12.5") (VStr "abc")
    end.
Proof.
  apply (migration_effects not_null (mkWorld Sample.batch [])
           (Sample.point 2 (VStr "12.5") (VStr "abc"))).
  intros q t Hq. vm_compute in Hq.
  destruct Hq as [<- | [<- | [<- | []]]]; reflexivity.
Defined.

(* ================================================================== *)
(** ** Numeric records pass through                                    *)
(* ================================================================== *)

Lemma in_range_not_text lo hi v :
  Spec.in_range lo hi v = true -> isinstance_str v = false.
Proof. destruct v; cbn; intros H; try reflexivity; discriminate. Qed.

(** C6: when every record already has a numeric latitude and longitude
    within range, the normalized output is the input, unchanged, and the
    failed output is empty. *)
Theorem numeric_in_range_pass_through records :
  forallb Spec.in_range_point records = true ->
  normalize records = (records, []).
Proof.
  intros H. unfold normalize.
  destruct (normalized_no_text records) as [-> ->]; [| reflexivity].
  intros p Hp. rewrite forallb_forall in H. specialize (H p Hp).
  unfold Spec.in_range_point in H. apply andb_true_iff in H. destruct H as [H1 H2].
  split; eapply in_range_not_text; eassumption.
Qed.

Lemma numeric_in_range_pass_through_witness :
  forallb Spec.in_range_point
    [Sample.point 3 (Sample.f false 10 0) (Sample.f true 20 0);
     Sample.point 6 (VInt 90) (Sample.f true 180 0)] = true /\
  normalize [Sample.point 3 (Sample.f false 10 0) (Sample.f true 20 0);
             Sample.point 6 (VInt 90) (Sample.f true 180 0)] =
    ([Sample.point 3 (Sample.f false 10 0) (Sample.f true 20 0);
      Sample.point 6 (VInt 90) (Sample.f true 180 0)], []).
Proof.
  split; [vm_compute; reflexivity |].
  apply (numeric_in_range_pass_through
           [Sample.point 3 (Sample.f false 10 0) (Sample.f true 20 0);
            Sample.point 6 (VInt 90) (Sample.f true 180 0)]).
  vm_compute; reflexivity.
Defined.

(* ================================================================== *)
(** ** Partition and order                                             *)
(* ================================================================== *)




(* ================================================================== *)
(** ** Idempotence                                                     *)
(* ================================================================== *)

(** C8: normalising the normalized output of a first run returns it
    unchanged, with an empty failed output. *)
Theorem normalize_idempotent records :
  normalize (normalized records) = (normalized records, []).
Proof.
  unfold normalize.
  destruct (normalized_no_text (normalized records)) as [-> ->]; [| reflexivity].
  intros p Hp. exact (normalized_has_no_text records p Hp).
Qed.

(* ================================================================== *)
(** ** A failed record is not saved                                    *)
(* ================================================================== *)

(** C9: when converting the latitude or the longitude of a record raises,
    the iteration for that record runs no [save()]: whatever the store
    behind [save()] would do, the iteration leaves the table as it was and
    only prints the warning.  So the record is never stored with one
    coordinate converted and the other not, even though the instance in
    memory can be in that state. *)
Theorem failed_record_is_never_saved (save : store) w p e :
  snd (convert_point p) = Raise e ->
  loop_body_on save p w = (mkWorld (db w) (stdout w ++ [warning (id p)]), None).
Proof. apply loop_body_on_refused. Qed.

Lemma failed_record_is_never_saved_witness :
  loop_body_on not_null (Sample.point 2 (VStr "12.5") (VStr "abc"))
    (mkWorld Sample.batch []) =
  (mkWorld Sample.batch ([] ++ [warning 2]), None).
Proof.
  apply (failed_record_is_never_saved not_null (mkWorld Sample.batch [])
           (Sample.point 2 (VStr "12.5") (VStr "abc")) ValueError).
  vm_compute; reflexivity.
Defined.

(* ================================================================== *)
(** ** The reverse migration                                           *)
(* ================================================================== *)

(** C10: [reverse_conversion] reads nothing and writes nothing: it returns
    every table, and the printed lines, as it found them; run after the
    conversion it leaves the converted table, not the original one. *)
Theorem reverse_conversion_is_noop w :
  reverse_conversion w = Ok w /\
  bind (convert_gps_strings_to_floats w) reverse_conversion =
    convert_gps_strings_to_floats w.
Proof.
  split; [reflexivity |].
  destruct (convert_gps_strings_to_floats w); reflexivity.
Qed.

(* ================================================================== *)
(** ** The table after the migration                                   *)
(* ================================================================== *)

Lemma convert_point_no_text p :
  Rows.holds_text p = false -> convert_point p = (p, Ok tt).
Proof.
  unfold Rows.holds_text. intros H. apply orb_false_iff in H. destruct H as [Hla Hlo].
  rewrite (convert_point_ok p _ _ (convert_value_fixed _ Hla) (convert_value_fixed _ Hlo)).
  unfold with_coordinates. now destruct p.
Qed.

Lemma accepted_no_text p : Rows.holds_text p = false -> Spec.accepted p = true.
Proof. intros H. apply accepted_iff_ok. now rewrite (convert_point_no_text p H). Qed.

Lemma converted_other_columns p :
  Rows.other_columns (fst (convert_point p)) = Rows.other_columns p.
Proof.
  destruct (convert_point_cases p)
    as [(la & lo & _ & _ & ->) | [[_ ->] | (la & _ & _ & ->)]]; reflexivity.
Qed.

(** *** Saving over a row *)

Lemma update_skips q t :
  ~ In (id q) (map id t) -> update q t = t.
Proof.
  intros H. unfold update. rewrite <- (map_id t) at 2. apply map_ext_in.
  intros r Hr. unfold has_id. destruct (Z.eqb_spec (id r) (id q)) as [E |]; [| reflexivity].
  exfalso. apply H. rewrite <- E. now apply in_map.
Qed.

(** With unique keys, saving a new version of a row replaces that row and
    no other. *)
Lemma save_in_place q a p b :
  unique_ids (a ++ p :: b) -> id q = id p ->
  save q (a ++ p :: b) = a ++ q :: b.
Proof.
  unfold unique_ids. intros Hu E. unfold save.
  assert (Hex : existsb (has_id (id q)) (a ++ p :: b) = true).
  { apply existsb_exists. exists p. split; [apply in_elt |].
    unfold has_id. apply Z.eqb_eq. now symmetry. }
  rewrite Hex. rewrite map_app in Hu. cbn [map] in Hu.
  pose proof (NoDup_remove_2 _ _ _ Hu) as Hnot.
  unfold update. rewrite map_app. cbn [map].
  fold (update q a). fold (update q b).
  rewrite (update_skips q a), (update_skips q b).
  - unfold has_id. rewrite E, Z.eqb_refl. reflexivity.
  - rewrite E. intros H. apply Hnot. apply in_or_app. now right.
  - rewrite E. intros H. apply Hnot. apply in_or_app. now left.
Qed.

Lemma saves_in_place todo done :
  unique_ids (done ++ todo) ->
  fold_left (fun t q => save q t) (normalized todo) (done ++ todo) =
  done ++ map Rows.migrated todo.
Proof.
  revert done. induction todo as [| p rest IH]; intros done Hu; [reflexivity |].
  rewrite normalized_cons, fold_left_app. cbn [map]. unfold Rows.migrated at 1.
  destruct (Spec.accepted p) eqn:Hp.
  - destruct (saved_as_accepted p Hp) as [-> _]. cbn [fold_left].
    rewrite (save_in_place _ done p rest Hu (convert_point_id p)).
    replace (done ++ fst (convert_point p) :: rest)
      with ((done ++ [fst (convert_point p)]) ++ rest) by (now rewrite <- app_assoc).
    rewrite IH; [now rewrite <- app_assoc |].
    unfold unique_ids in *. rewrite <- app_assoc. cbn [app].
    rewrite map_app in *. cbn [map] in *. now rewrite convert_point_id.
  - destruct (saved_as_refused p Hp) as [-> _]. cbn [fold_left].
    replace (done ++ p :: rest) with ((done ++ [p]) ++ rest) by (now rewrite <- app_assoc).
    rewrite IH; [now rewrite <- app_assoc |].
    now rewrite <- app_assoc.
Qed.

(** The migration, for a table with unique keys that refuses nothing. *)
Lemma migration_of_unique w :
  unique_ids (db w) ->
  convert_gps_strings_to_floats w =
  Ok (mkWorld (map Rows.migrated (db w)) (stdout w ++ map warning (failed (db w)))).
Proof.
  intros Hu. change (convert_gps_strings_to_floats w) with (for_each (db w) w).
  rewrite for_each_outputs.
  pose proof (saves_in_place (db w) [] Hu) as H. cbn [app] in H. now rewrite H.
Qed.

(** *** Rows and output, whatever the store *)

Lemma not_null_keeps_other_rows q t j :
  id q <> j -> get j (fst (not_null q t)) = get j t.
Proof.
  intros H. unfold not_null.
  destruct (is_nan_or_none (latitude q) || is_nan_or_none (longitude q));
    [reflexivity | now apply get_save_other].
Qed.

Lemma for_each_on_keeps_row save ps w i :
  (forall q t j, id q <> j -> get j (fst (save q t)) = get j t) ->
  (forall q, In q ps -> Spec.accepted q = true -> id q <> i) ->
  get i (db (fst (for_each_on save ps w))) = get i (db w).
Proof.
  intros Hframe. revert w. induction ps as [| p l IH]; intros w H; [reflexivity |].
  cbn [for_each_on]. destruct (Spec.accepted p) eqn:Hp.
  - rewrite (loop_body_on_accepted save p w Hp).
    assert (Hi : id (fst (convert_point p)) <> i).
    { rewrite convert_point_id. apply H; [now left | exact Hp]. }
    pose proof (Hframe (fst (convert_point p)) (db w) i Hi) as Ht.
    destruct (save (fst (convert_point p)) (db w)) as [t [e |]]; cbn [fst] in Ht.
    + destruct (handled e); [| exact Ht].
      rewrite IH by (intros; apply H; [now right | assumption]). exact Ht.
    + rewrite IH by (intros; apply H; [now right | assumption]). exact Ht.
  - apply refused_iff_raise in Hp.
    rewrite (loop_body_on_refused save p w _ Hp).
    rewrite IH by (intros; apply H; [now right | assumption]). reflexivity.
Qed.

Lemma for_each_on_output save ps w :
  exists ids,
    stdout (fst (for_each_on save ps w)) = stdout w ++ map warning ids /\
    incl ids (map id ps).
Proof.
  revert w. induction ps as [| p l IH]; intros w.
  - exists []. cbn. rewrite app_nil_r. split; [reflexivity | apply incl_refl].
  - cbn [for_each_on map].
    assert (Hstep : exists ids0,
              stdout (fst (loop_body_on save p w)) = stdout w ++ map warning ids0 /\
              incl ids0 [id p]).
    { destruct (Spec.accepted p) eqn:Hp.
      - rewrite (loop_body_on_accepted save p w Hp).
        destruct (save (fst (convert_point p)) (db w)) as [t [e |]].
        + destruct (handled e).
          * exists [id p]. split; [reflexivity | apply incl_refl].
          * exists []. cbn. rewrite app_nil_r. split; [reflexivity | intros x []].
        + exists []. cbn. rewrite app_nil_r. split; [reflexivity | intros x []].
      - apply refused_iff_raise in Hp. rewrite (loop_body_on_refused save p w _ Hp).
        exists [id p]. split; [reflexivity | apply incl_refl]. }
    destruct Hstep as (ids0 & H0 & Hin0).
    destruct (loop_body_on save p w) as [w' [e |]]; cbn [fst] in H0.
    + exists ids0. split; [exact H0 |].
      intros x Hx. destruct (Hin0 x Hx) as [<- | []]. now left.
    + destruct (IH w') as (ids & H1 & Hin1).
      exists (ids0 ++ ids). split.
      * now rewrite H1, H0, map_app, app_assoc.
      * intros x Hx. apply in_app_or in Hx. destruct Hx as [Hx | Hx].
        -- destruct (Hin0 x Hx) as [<- | []]. now left.
        -- right. now apply Hin1.
Qed.

(* ================================================================== *)
(** ** The migration, seen from the table                              *)
(* ================================================================== *)

Ltac unique_by_computation :=
  unfold unique_ids; cbn;
  repeat (constructor; [cbn; intuition discriminate |]); constructor.

(** X1: when [save()] raises an exception that the handler does not catch
    (any but [ValueError] and [TypeError]: the database's [IntegrityError],
    say), the migration stops at that record with that exception: no later
    record is converted, saved or reported. *)
Theorem uncaught_save_error_stops_the_run (save : store) before p after w w1 t e :
  for_each_on save before w = (w1, None) ->
  Spec.accepted p = true ->
  save (fst (convert_point p)) (db w1) = (t, Some e) ->
  handled e = false ->
  for_each_on save (before ++ p :: after) w = (mkWorld t (stdout w1), Some e).
Proof.
  intros Hb Hp Hs He. rewrite for_each_on_app, Hb. cbn [for_each_on].
  now rewrite (loop_body_on_accepted save p w1 Hp), Hs, He.
Qed.

Lemma uncaught_save_error_stops_the_run_witness :
  for_each_on not_null
    ([Sample.point 1 (VStr "45.123") (VStr "-122.5")] ++
     Sample.point 7 (VStr "nan") (VStr "1") ::
     [Sample.point 2 (VStr "12.5") (VStr "abc")])
    (mkWorld [Sample.point 1 (VStr "45.123") (VStr "-122.5");
              Sample.point 7 (VStr "nan") (VStr "1");
              Sample.point 2 (VStr "12.5") (VStr "abc")] []) =
  (mkWorld [Sample.point 1 (Sample.f false 45123 (-3)) (Sample.f true 1225 (-1));
            Sample.point 7 (VStr "nan") (VStr "1");
            Sample.point 2 (VStr "12.5") (VStr "abc")]
           (stdout (mkWorld [Sample.point 1 (Sample.f false 45123 (-3))
                               (Sample.f true 1225 (-1));
                             Sample.point 7 (VStr "nan") (VStr "1");
                             Sample.point 2 (VStr "12.5") (VStr "abc")] [])),
   Some (DatabaseError "IntegrityError")).
Proof.
  apply (uncaught_save_error_stops_the_run not_null
           [Sample.point 1 (VStr "45.123") (VStr "-122.5")]
           (Sample.point 7 (VStr "nan") (VStr "1"))
           [Sample.point 2 (VStr "12.5") (VStr "abc")]);
    vm_compute; reflexivity.
Defined.

(** X2: with unique primary keys and a database whose [save()] touches no
    row but the one of the instance's key, the stored row of a record whose
    conversion fails is at the end of the run, completed or aborted, what it
    was at the start. *)
Theorem failed_row_survives_the_run (save : store) w p e :
  unique_ids (db w) ->
  In p (db w) ->
  snd (convert_point p) = Raise e ->
  (forall q t j, id q <> j -> get j (fst (save q t)) = get j t) ->
  get (id p) (db (fst (convert_gps_strings_to_floats_on save w))) = Some p.
Proof.
  intros Hu Hp He Hframe. unfold convert_gps_strings_to_floats_on.
  rewrite (for_each_on_keeps_row save (db w) w (id p) Hframe).
  - now apply get_in_unique.
  - intros q Hq Hv E.
    assert (q = p) by (eapply unique_ids_inj; eassumption). subst q.
    apply accepted_iff_ok in Hv. congruence.
Qed.

Lemma failed_row_survives_the_run_witness :
  get 2 (db (fst (convert_gps_strings_to_floats_on not_null (mkWorld Sample.batch [])))) =
  Some (Sample.point 2 (VStr "12.5") (VStr "abc")).
Proof.
  apply (failed_row_survives_the_run not_null (mkWorld Sample.batch [])
           (Sample.point 2 (VStr "12.5") (VStr "abc")) ValueError).
  - unique_by_computation.
  - cbn. right; left; reflexivity.
  - vm_compute; reflexivity.
  - apply not_null_keeps_other_rows.
Defined.

(** X3: whatever the database does, and whether the run is completed or
    aborted, the migration only appends to the output, and every line it
    appends is the warning for the id of a row of the table. *)
Theorem output_only_gains_warnings (save : store) w :
  exists ids,
    stdout (fst (convert_gps_strings_to_floats_on save w)) =
      stdout w ++ map warning ids /\
    incl ids (map id (db w)).
Proof. apply for_each_on_output. Qed.

(** X4: the instances that the conversions hand to [save()] carry the id,
    scan, accuracy and timestamp of the rows they were read from: the
    conversion assigns nothing but latitude and longitude. *)
Theorem conversion_keeps_other_columns records :
  map Rows.other_columns (normalized records) =
  map Rows.other_columns (filter Spec.accepted records).
Proof.
  rewrite normalized_filter, map_map. apply map_ext.
  apply converted_other_columns.
Qed.

(** X6: a table with unique primary keys in which no coordinate is text is
    left exactly as it is, and nothing is printed. *)
Theorem converted_table_is_left_alone w :
  unique_ids (db w) ->
  forallb (fun p => negb (Rows.holds_text p)) (db w) = true ->
  convert_gps_strings_to_floats w = Ok w.
Proof.
  intros Hu Hn. rewrite (migration_of_unique w Hu).
  rewrite forallb_forall in Hn.
  assert (Hm : map Rows.migrated (db w) = db w).
  { rewrite <- (map_id (db w)) at 2. apply map_ext_in. intros p Hp.
    specialize (Hn p Hp). apply negb_true_iff in Hn.
    unfold Rows.migrated. rewrite (accepted_no_text p Hn).
    now rewrite (convert_point_no_text p Hn). }
  assert (Hf : failed (db w) = []).
  { apply normalized_no_text. intros p Hp.
    specialize (Hn p Hp). apply negb_true_iff in Hn.
    unfold Rows.holds_text in Hn. now apply orb_false_iff in Hn. }
  rewrite Hm, Hf. cbn. rewrite app_nil_r. now destruct w.
Qed.

Lemma converted_table_is_left_alone_witness :
  convert_gps_strings_to_floats (mkWorld Rows.converted []) =
  Ok (mkWorld Rows.converted []).
Proof.
  apply (converted_table_is_left_alone (mkWorld Rows.converted []));
    [unique_by_computation | vm_compute; reflexivity].
Defined.

(* ================================================================== *)
(** ** The dict of a representation                                    *)
(* ================================================================== *)

Section Dict.

Import Serializer.

Lemma lookup_setitem_same k v d : lookup k (setitem k v d) = Some v.
Proof.
  induction d as [| [k' v'] d IH]; cbn.
  - now rewrite String.eqb_refl.
  - destruct (String.eqb k' k) eqn:E; cbn.
    + now rewrite String.eqb_refl.
    + now rewrite E.
Qed.

Lemma lookup_setitem_other k k' v d :
  k' <> k -> lookup k' (setitem k v d) = lookup k' d.
Proof.
  intros Hne. induction d as [| [k0 v0] d IH]; cbn.
  - destruct (String.eqb_spec k k'); [congruence | reflexivity].
  - destruct (String.eqb_spec k0 k) as [-> |]; cbn.
    + destruct (String.eqb_spec k k'); [congruence | reflexivity].
    + destruct (String.eqb k0 k'); [reflexivity | exact IH].
Qed.

Lemma get_setitem_other k k' v d :
  k' <> k -> get k' (setitem k v d) = get k' d.
Proof. intros H. unfold get. now rewrite lookup_setitem_other. Qed.

Lemma has_key_lookup k d :
  has_key k d = match lookup k d with Some _ => true | None => false end.
Proof.
  unfold has_key. induction d as [| [k' v'] d IH]; [reflexivity |].
  cbn. rewrite String.eqb_sym. destruct (String.eqb k' k); [reflexivity | exact IH].
Qed.

(** A present key keeps its place; a new key goes to the end. *)
Lemma keys_setitem k v d :
  map fst (setitem k v d) = map fst d ++ (if has_key k d then [] else [k]).
Proof.
  unfold has_key. induction d as [| [k' v'] d IH]; [reflexivity |].
  cbn. rewrite (String.eqb_sym k k').
  destruct (String.eqb_spec k' k) as [-> |]; cbn.
  - now rewrite app_nil_r.
  - now rewrite IH.
Qed.

Lemma has_key_setitem k k' v d :
  has_key k' (setitem k v d) = String.eqb k' k || has_key k' d.
Proof.
  rewrite !has_key_lookup. destruct (String.eqb_spec k' k) as [-> | Hne].
  - now rewrite lookup_setitem_same.
  - now rewrite lookup_setitem_other.
Qed.

(** A truthy [d.get(k)] is the value of a present key: [d[k]] is that
    value. *)
Lemma getitem_of_truthy k d :
  truthy (get k d) = true -> getitem k d = Returns (get k d).
Proof.
  unfold get, getitem. destruct (lookup k d); [reflexivity | discriminate].
Qed.

Lemma setitem_same_value k v d :
  lookup k d = Some v -> setitem k v d = d.
Proof.
  induction d as [| [k' v'] d IH]; cbn; [discriminate |].
  destruct (String.eqb_spec k' k) as [-> |].
  - intros H; inversion H; reflexivity.
  - intros H. now rewrite IH.
Qed.

End Dict.

(* ================================================================== *)
(** ** [to_representation], statement by statement                     *)
(* ================================================================== *)

Section Coerce.

Import Serializer.

Variable conv : json -> outcome json.
Variable dflt : json.

Lemma coerce_returns k d d' :
  coerce conv dflt k d = Returns d' <->
  exists v, chosen conv dflt (get k d) v /\ d' = setitem k v d.
Proof.
  unfold coerce, chosen. destruct (truthy (get k d)) eqn:Ht.
  - rewrite (getitem_of_truthy k d Ht). cbn.
    destruct (conv (get k d)) as [v | e]; cbn; split.
    + intros H; inversion H. now exists v.
    + intros (v0 & H & ->). now inversion H.
    + discriminate.
    + intros (v0 & H & _). discriminate.
  - cbn. split.
    + intros H; inversion H. now exists dflt.
    + now intros (v & -> & ->).
Qed.

Lemma coerce_raises k d e :
  coerce conv dflt k d = Raises e <->
  truthy (get k d) = true /\ conv (get k d) = Raises e.
Proof.
  unfold coerce. destruct (truthy (get k d)) eqn:Ht.
  - rewrite (getitem_of_truthy k d Ht). cbn.
    destruct (conv (get k d)) as [v | e0]; cbn; split;
      try discriminate; try (intros [_ H]; discriminate).
    + intros H; inversion H; auto.
    + intros [_ H]; inversion H; reflexivity.
  - cbn. split; [discriminate | intros [H _]; discriminate].
Qed.

End Coerce.

Section ToRepresentation.

Import Serializer.
Local Open Scope string_scope.

Ltac other_key := let H := fresh in intros H; discriminate H.

(** The dict after the five statements. *)
Lemma to_representation_returns data out :
  to_representation data = Returns out <->
  exists v1 v2 v3 v4 v5,
    chosen int int_zero (get "duration" data) v1 /\
    chosen float float_zero (get "area_covered" data) v2 /\
    chosen float float_zero (get "height" data) v3 /\
    chosen float float_zero (get "data_size_mb" data) v4 /\
    chosen int int_zero (get "total_images" data) v5 /\
    out = setitem "total_images" v5 (setitem "data_size_mb" v4
            (setitem "height" v3 (setitem "area_covered" v2
              (setitem "duration" v1 data)))).
Proof.
  unfold to_representation. split.
  - destruct (coerce int int_zero "duration" data) as [d1 |] eqn:E1; [| discriminate].
    cbn [and_then].
    destruct (coerce float float_zero "area_covered" d1) as [d2 |] eqn:E2; [| discriminate].
    cbn [and_then].
    destruct (coerce float float_zero "height" d2) as [d3 |] eqn:E3; [| discriminate].
    cbn [and_then].
    destruct (coerce float float_zero "data_size_mb" d3) as [d4 |] eqn:E4; [| discriminate].
    cbn [and_then].
    destruct (coerce int int_zero "total_images" d4) as [d5 |] eqn:E5; [| discriminate].
    cbn [and_then]. intros H; inversion H; subst; clear H.
    apply coerce_returns in E1, E2, E3, E4, E5.
    destruct E1 as (v1 & H1 & ->), E2 as (v2 & H2 & ->), E3 as (v3 & H3 & ->),
      E4 as (v4 & H4 & ->), E5 as (v5 & H5 & ->).
    repeat rewrite get_setitem_other in H2 by other_key.
    repeat rewrite get_setitem_other in H3 by other_key.
    repeat rewrite get_setitem_other in H4 by other_key.
    repeat rewrite get_setitem_other in H5 by other_key.
    exists v1, v2, v3, v4, v5. repeat (split; [assumption |]). reflexivity.
  - intros (v1 & v2 & v3 & v4 & v5 & H1 & H2 & H3 & H4 & H5 & ->).
    assert (E1 : coerce int int_zero "duration" data = Returns (setitem "duration" v1 data))
      by (apply coerce_returns; eauto).
    rewrite E1. cbn [and_then].
    match goal with |- context [coerce float float_zero "area_covered" ?d] =>
      assert (E2 : coerce float float_zero "area_covered" d = Returns (setitem "area_covered" v2 d))
        by (apply coerce_returns; exists v2; split; [| reflexivity];
            now rewrite !get_setitem_other by other_key) end.
    rewrite E2. cbn [and_then].
    match goal with |- context [coerce float float_zero "height" ?d] =>
      assert (E3 : coerce float float_zero "height" d = Returns (setitem "height" v3 d))
        by (apply coerce_returns; exists v3; split; [| reflexivity];
            now rewrite !get_setitem_other by other_key) end.
    rewrite E3. cbn [and_then].
    match goal with |- context [coerce float float_zero "data_size_mb" ?d] =>
      assert (E4 : coerce float float_zero "data_size_mb" d = Returns (setitem "data_size_mb" v4 d))
        by (apply coerce_returns; exists v4; split; [| reflexivity];
            now rewrite !get_setitem_other by other_key) end.
    rewrite E4. cbn [and_then].
    match goal with |- context [coerce int int_zero "total_images" ?d] =>
      assert (E5 : coerce int int_zero "total_images" d = Returns (setitem "total_images" v5 d))
        by (apply coerce_returns; exists v5; split; [| reflexivity];
            now rewrite !get_setitem_other by other_key) end.
    rewrite E5. reflexivity.
Qed.

Lemma chosen_int x v :
  chosen int int_zero x v -> exists z, v = JScalar (VInt z).
Proof.
  unfold chosen. destruct (truthy x); [| intros ->; now exists 0%Z].
  destruct x as [val | |]; cbn; try discriminate.
  destruct (PyInt.int val) as [z |]; cbn; [| discriminate].
  intros H; inversion H. now exists z.
Qed.

Lemma chosen_float x v :
  chosen float float_zero x v -> exists f, v = JScalar (VFloat f).
Proof.
  unfold chosen. destruct (truthy x); [| intros ->; now exists (S754_zero false)].
  destruct x as [val | |]; cbn -[Py.float]; try discriminate.
  destruct (Py.float val) as [f |]; cbn; [| discriminate].
  intros H; inversion H. now exists f.
Qed.

(** Under each coerced key the result holds the value its statement
    chose. *)
Lemma to_representation_at data out k :
  to_representation data = Returns out ->
  In k coerced_keys ->
  exists v, lookup k out = Some v /\
            chosen (conversion k) (default k) (get k data) v.
Proof.
  intros H Hk. apply to_representation_returns in H.
  destruct H as (v1 & v2 & v3 & v4 & v5 & H1 & H2 & H3 & H4 & H5 & ->).
  cbn in Hk. destruct Hk as [<- | [<- | [<- | [<- | [<- | []]]]]].
  - exists v1. split; [| exact H1].
    repeat rewrite lookup_setitem_other by other_key. apply lookup_setitem_same.
  - exists v2. split; [| exact H2].
    repeat rewrite lookup_setitem_other by other_key. apply lookup_setitem_same.
  - exists v3. split; [| exact H3].
    repeat rewrite lookup_setitem_other by other_key. apply lookup_setitem_same.
  - exists v4. split; [| exact H4].
    repeat rewrite lookup_setitem_other by other_key. apply lookup_setitem_same.
  - exists v5. split; [| exact H5]. apply lookup_setitem_same.
Qed.

(** Under every other key the result holds what the input held. *)
Lemma to_representation_elsewhere data out k :
  to_representation data = Returns out ->
  ~ In k coerced_keys ->
  lookup k out = lookup k data.
Proof.
  intros H Hk. apply to_representation_returns in H.
  destruct H as (v1 & v2 & v3 & v4 & v5 & _ & _ & _ & _ & _ & ->).
  repeat rewrite lookup_setitem_other
    by (intros ->; apply Hk; cbn; auto 6).
  reflexivity.
Qed.

Lemma to_representation_key_order data out :
  to_representation data = Returns out ->
  map fst out =
  (map fst data ++ filter (fun k => negb (has_key k data)) coerced_keys)%list.
Proof.
  intros H. apply to_representation_returns in H.
  destruct H as (v1 & v2 & v3 & v4 & v5 & _ & _ & _ & _ & _ & ->).
  rewrite !keys_setitem, !has_key_setitem. cbn [String.eqb Ascii.eqb Bool.eqb orb].
  cbn [coerced_keys filter].
  destruct (has_key "duration" data), (has_key "area_covered" data),
    (has_key "height" data), (has_key "data_size_mb" data),
    (has_key "total_images" data); cbn [negb app];
    rewrite <- ?app_assoc, ?app_nil_r; reflexivity.
Qed.

(** Which statement raises, and what. *)
Lemma to_representation_raises data e :
  to_representation data = Raises e ->
  exists k, In k coerced_keys /\ truthy (get k data) = true /\
            conversion k (get k data) = Raises e.
Proof.
  unfold to_representation.
  destruct (coerce int int_zero "duration" data) as [d1 |] eqn:E1; cbn [and_then].
  2:{ intros H; inversion H; subst. apply coerce_raises in E1.
      exists "duration". cbn. intuition. }
  apply coerce_returns in E1. destruct E1 as (v1 & _ & ->).
  destruct (coerce float float_zero "area_covered" _) as [d2 |] eqn:E2; cbn [and_then].
  2:{ intros H; inversion H; subst. apply coerce_raises in E2.
      repeat rewrite get_setitem_other in E2 by other_key.
      exists "area_covered". cbn. intuition. }
  apply coerce_returns in E2. destruct E2 as (v2 & _ & ->).
  destruct (coerce float float_zero "height" _) as [d3 |] eqn:E3; cbn [and_then].
  2:{ intros H; inversion H; subst. apply coerce_raises in E3.
      repeat rewrite get_setitem_other in E3 by other_key.
      exists "height". cbn. intuition. }
  apply coerce_returns in E3. destruct E3 as (v3 & _ & ->).
  destruct (coerce float float_zero "data_size_mb" _) as [d4 |] eqn:E4; cbn [and_then].
  2:{ intros H; inversion H; subst. apply coerce_raises in E4.
      repeat rewrite get_setitem_other in E4 by other_key.
      exists "data_size_mb". cbn. intuition. }
  apply coerce_returns in E4. destruct E4 as (v4 & _ & ->).
  destruct (coerce int int_zero "total_images" _) as [d5 |] eqn:E5; cbn [and_then].
  2:{ intros H; inversion H; subst. apply coerce_raises in E5.
      repeat rewrite get_setitem_other in E5 by other_key.
      exists "total_images". cbn. intuition. }
  discriminate.
Qed.

Lemma conversion_raises_builtin k x e :
  conversion k x = Raises e -> exists b, e = Builtin b.
Proof.
  unfold conversion. destruct (is_int_key k), x as [val | |]; cbn -[Py.float];
    try (intros H; inversion H; eauto; fail).
  - destruct (PyInt.int val); cbn; intros H; inversion H; eauto.
  - destruct (Py.float val); cbn; intros H; inversion H; eauto.
Qed.

(** Input of the fields' own types is returned with the defaults filled
    in. *)
Lemma chosen_of_typed k x :
  typed_input k x = true ->
  chosen (conversion k) (default k) x (if truthy x then x else default k).
Proof.
  unfold typed_input, chosen, conversion, default.
  destruct (is_int_key k), x as [[| z | f | s] | |]; cbn; try discriminate;
    try reflexivity.
  - now destruct (z =? 0)%Z.
  - now destruct f.
Qed.

Lemma to_representation_of_typed data :
  (forall k, In k coerced_keys -> typed_input k (get k data) = true) ->
  exists out, to_representation data = Returns out.
Proof.
  intros H. eexists. apply to_representation_returns.
  exists (if truthy (get "duration" data) then get "duration" data else default "duration"),
    (if truthy (get "area_covered" data) then get "area_covered" data else default "area_covered"),
    (if truthy (get "height" data) then get "height" data else default "height"),
    (if truthy (get "data_size_mb" data) then get "data_size_mb" data else default "data_size_mb"),
    (if truthy (get "total_images" data) then get "total_images" data else default "total_images").
  repeat split;
    try (match goal with |- chosen _ _ (get ?k _) _ =>
           apply (chosen_of_typed k); apply H; cbn; auto 6 end).
Qed.

End ToRepresentation.

(* ================================================================== *)
(** ** What [to_representation] returns and raises                     *)
(* ================================================================== *)

Section Representation.

Import Serializer.
Local Open Scope string_scope.

Lemma chosen_typed k x v :
  chosen (conversion k) (default k) x v -> typed_input k v = true.
Proof.
  unfold conversion, default, typed_input. destruct (is_int_key k); intros H.
  - destruct (chosen_int x v H) as [z ->]. reflexivity.
  - destruct (chosen_float x v H) as [f ->]. reflexivity.
Qed.

Lemma lookup_get k d v : lookup k d = Some v -> get k d = v.
Proof. unfold get. now intros ->. Qed.

Lemma to_representation_numbers data out k :
  to_representation data = Returns out ->
  In k coerced_keys ->
  exists v, lookup k out = Some (JScalar v) /\
            if is_int_key k then exists z, v = VInt z else exists f, v = VFloat f.
Proof.
  intros H Hk. destruct (to_representation_at data out k H Hk) as (v & Hv & Hc).
  unfold conversion, default in Hc. destruct (is_int_key k).
  - destruct (chosen_int _ _ Hc) as [z ->]. eauto.
  - destruct (chosen_float _ _ Hc) as [f ->]. eauto.
Qed.

(** X7: when [to_representation] returns, each of the five coerced keys is
    present in the result, with an [int] under [duration] and
    [total_images] and a [float] under [area_covered], [height] and
    [data_size_mb], whatever the input held there. *)
Theorem to_representation_types data out k :
  to_representation data = Returns out ->
  In k coerced_keys ->
  exists v, lookup k out = Some (JScalar v) /\
            if is_int_key k then exists z, v = VInt z else exists f, v = VFloat f.
Proof. apply to_representation_numbers. Qed.

Lemma to_representation_types_witness :
  exists v, lookup "height" sample_out = Some (JScalar v) /\
            if is_int_key "height" then exists z, v = VInt z else exists f, v = VFloat f.
Proof.
  apply (to_representation_types sample sample_out "height");
    [vm_compute; reflexivity | cbn; auto].
Defined.

(** X8: a coerced key that is missing from the input, or holds a false
    value there ([None], a zero of either sign, an empty text, list or
    dict), holds its default in the result: [0] for [duration] and
    [total_images], [0.0] for the three floats. *)
Theorem falsy_values_get_defaults data out k :
  to_representation data = Returns out ->
  In k coerced_keys ->
  truthy (get k data) = false ->
  lookup k out = Some (default k).
Proof.
  intros H Hk Hf. destruct (to_representation_at data out k H Hk) as (v & Hv & Hc).
  unfold chosen in Hc. rewrite Hf in Hc. now rewrite Hv, Hc.
Qed.

Lemma falsy_values_get_defaults_witness :
  lookup "data_size_mb" sample_out = Some (default "data_size_mb").
Proof.
  apply (falsy_values_get_defaults sample sample_out "data_size_mb");
    [vm_compute; reflexivity | cbn; auto | vm_compute; reflexivity].
Defined.

(** X9: when [to_representation] returns, every key other than the five
    coerced ones holds in the result what it held in the input, and is
    missing from the result when it was missing from the input. *)
Theorem to_representation_keeps_other_keys data out k :
  to_representation data = Returns out ->
  ~ In k coerced_keys ->
  lookup k out = lookup k data.
Proof. apply to_representation_elsewhere. Qed.

Lemma to_representation_keeps_other_keys_witness :
  lookup "gps_points" sample_out = lookup "gps_points" sample.
Proof.
  apply (to_representation_keeps_other_keys sample sample_out "gps_points");
    [vm_compute; reflexivity | cbn; intuition discriminate].
Defined.

(** X10: when [to_representation] returns, the keys of the input keep their
    positions in the result, and the coerced keys that the input lacked
    follow them, in the order [duration], [area_covered], [height],
    [data_size_mb], [total_images]. *)
Theorem to_representation_key_positions data out :
  to_representation data = Returns out ->
  map fst out =
  (map fst data ++ filter (fun k => negb (has_key k data)) coerced_keys)%list.
Proof. apply to_representation_key_order. Qed.

Lemma to_representation_key_positions_witness :
  map fst sample_out =
  (map fst sample ++ filter (fun k => negb (has_key k sample)) coerced_keys)%list.
Proof.
  apply (to_representation_key_positions sample sample_out).
  vm_compute; reflexivity.
Defined.

(** X11: when [to_representation] raises, the exception is the one that
    [int] or [float] raised for the true value of one of the coerced keys;
    it never raises a [KeyError]. *)
Theorem to_representation_raises_conversion_errors data e :
  to_representation data = Raises e ->
  exists k b, e = Builtin b /\ In k coerced_keys /\
              truthy (get k data) = true /\
              conversion k (get k data) = Raises (Builtin b).
Proof.
  intros H. destruct (to_representation_raises data e H) as (k & Hk & Ht & Hc).
  destruct (conversion_raises_builtin _ _ _ Hc) as [b ->].
  exists k, b. auto.
Qed.

Lemma to_representation_raises_conversion_errors_witness :
  exists k b, Builtin ValueError = Builtin b /\ In k coerced_keys /\
              truthy (get k [("duration", JScalar (VFloat S754_nan))]) = true /\
              conversion k (get k [("duration", JScalar (VFloat S754_nan))]) =
                Raises (Builtin b).
Proof.
  apply (to_representation_raises_conversion_errors
           [("duration", JScalar (VFloat S754_nan))] (Builtin ValueError)).
  vm_compute; reflexivity.
Defined.

(** X12: [to_representation] returns exactly when, for each coerced key
    whose value in the input is true, the conversion of that key ([int] or
    [float]) accepts the value. *)
Theorem to_representation_returns_iff data :
  (exists out, to_representation data = Returns out) <->
  (forall k, In k coerced_keys -> truthy (get k data) = true ->
             exists v, conversion k (get k data) = Returns v).
Proof.
  split.
  - intros [out H] k Hk Ht.
    destruct (to_representation_at data out k H Hk) as (v & _ & Hc).
    unfold chosen in Hc. rewrite Ht in Hc. eauto.
  - intros H. destruct (to_representation data) as [out | e] eqn:E; [eauto |].
    destruct (to_representation_raises data e E) as (k & Hk & Ht & Hc).
    destruct (H k Hk Ht) as [v Hv]. congruence.
Qed.

Lemma to_representation_returns_iff_witness :
  exists v, conversion "duration" (get "duration" sample) = Returns v.
Proof.
  apply (proj1 (to_representation_returns_iff sample));
    [exists sample_out; vm_compute; reflexivity | cbn; auto | vm_compute; reflexivity].
Defined.

(** X13: when the input holds, under each coerced key, nothing, [None] or a
    number of the key's own type (an [int] for [duration] and
    [total_images], a [float] for the others), [to_representation] returns,
    and under each coerced key the result holds the input's value when it
    is true and the default otherwise. *)
Theorem typed_representation_is_returned data k :
  (forall k', In k' coerced_keys -> typed_input k' (get k' data) = true) ->
  In k coerced_keys ->
  exists out, to_representation data = Returns out /\
              lookup k out =
              Some (if truthy (get k data) then get k data else default k).
Proof.
  intros Hall Hk. destruct (to_representation_of_typed data Hall) as [out H].
  exists out. split; [exact H |].
  destruct (to_representation_at data out k H Hk) as (v & Hv & Hc).
  rewrite Hv. f_equal.
  pose proof (chosen_of_typed k (get k data) (Hall k Hk)) as Hc'.
  unfold chosen in *. destruct (truthy (get k data)); congruence.
Qed.

Lemma typed_representation_is_returned_witness :
  exists out, to_representation sample = Returns out /\
              lookup "area_covered" out =
              Some (if truthy (get "area_covered" sample)
                    then get "area_covered" sample else default "area_covered").
Proof.
  apply (typed_representation_is_returned sample "area_covered"); [| cbn; auto].
  intros k' Hk'. cbn in Hk'.
  destruct Hk' as [<- | [<- | [<- | [<- | [<- | []]]]]]; vm_compute; reflexivity.
Defined.

(** X14: [to_representation] accepts its own result, and returns it with
    the same keys in the same order and the same values, but for one case:
    a negative zero under a float key, which tests false, becomes [0.0]. *)
Theorem to_representation_twice data out k :
  to_representation data = Returns out ->
  exists out2,
    to_representation out = Returns out2 /\
    map fst out2 = map fst out /\
    (lookup k out2 = lookup k out \/
     (In k float_keys /\
      lookup k out = Some (JScalar (VFloat (S754_zero true))) /\
      lookup k out2 = Some float_zero)).
Proof.
  intros H.
  assert (Hat : forall k', In k' coerced_keys ->
            exists v, lookup k' out = Some v /\ typed_input k' v = true).
  { intros k' Hk'. destruct (to_representation_at data out k' H Hk') as (v & Hv & Hc).
    exists v. split; [exact Hv | exact (chosen_typed _ _ _ Hc)]. }
  assert (Hall : forall k', In k' coerced_keys -> typed_input k' (get k' out) = true).
  { intros k' Hk'. destruct (Hat k' Hk') as (v & Hv & Ht).
    now rewrite (lookup_get _ _ _ Hv). }
  destruct (to_representation_of_typed out Hall) as [out2 H2].
  exists out2. split; [exact H2 |]. split.
  - rewrite (to_representation_key_order out out2 H2).
    assert (Hk : forall k', In k' coerced_keys -> has_key k' out = true).
    { intros k' Hk'. destruct (Hat k' Hk') as (v & Hv & _).
      now rewrite has_key_lookup, Hv. }
    cbn [coerced_keys filter].
    rewrite !Hk by (cbn; auto 6). cbn. apply app_nil_r.
  - destruct (in_dec string_dec k coerced_keys) as [Hk | Hk];
      [| left; now apply to_representation_elsewhere].
    destruct (to_representation_numbers data out k H Hk) as (v & Hv & Hn).
    destruct (to_representation_at out out2 k H2 Hk) as (v2 & Hv2 & Hc).
    rewrite (lookup_get _ _ _ Hv) in Hc. rewrite Hv, Hv2.
    cbn in Hk. destruct Hk as [<- | [<- | [<- | [<- | [<- | []]]]]];
      cbn in Hn; destruct Hn as [n ->]; unfold chosen in Hc; cbn in Hc;
      unfold int_zero, float_zero in *.
    1, 5: destruct (Z.eqb_spec n 0) as [-> |]; cbn in Hc; left; congruence.
    all: destruct n as [[|] | | |]; cbn in Hc; try (left; congruence).
    all: right; (split; [cbn; auto |]); split; congruence.
Qed.

Lemma to_representation_twice_witness :
  exists out2,
    to_representation sample_out = Returns out2 /\
    map fst out2 = map fst sample_out /\
    (lookup "height" out2 = lookup "height" sample_out \/
     (In "height" float_keys /\
      lookup "height" sample_out = Some (JScalar (VFloat (S754_zero true))) /\
      lookup "height" out2 = Some float_zero)).
Proof.
  apply (to_representation_twice sample sample_out "height").
  vm_compute; reflexivity.
Defined.

End Representation.
